(** * Bergamot orchestration layer of [src/lib/translation.ts]

    A shallow embedding of the registry resolver, the path resolver, the
    progress arithmetic of [CustomBacking], the RPC transport of
    [CustomBacking.loadWorker] and the loader coordinator
    ([getBergamotTranslator], [loadBergamotModel],
    [cancelBergamotModelLoad]), with the properties the specification
    states about them.

    JavaScript runs the orchestration code on one thread: an [async]
    function executes without interruption from one [await] to the next.
    The embedding follows that: the code between two suspension points is
    one atomic transition, and what the outside world does at a suspension
    point (a network response, a timer, the engine calling back into the
    backing) is an input of the transition. *)

From stdpp Require Import gmap strings list fin_maps.
From Stdlib Require Import Ascii ZArith QArith Qround Lia.

Local Open Scope Z_scope.

(** ** JavaScript values the code looks at *)

(** An [Error] object: the code only reads [name] and [message]. *)
Record JsError := mkError { name : string; message : string }.

(** [new Error(msg)] *)
Definition newError (msg : string) : JsError := mkError "Error" msg.

(** The double-quote character, for messages that contain it. *)
Definition dquote : string := String (ascii_of_nat 34) EmptyString.

(** How a block of code ends: normally with a value, or by throwing. *)
Inductive Completion (A : Type) : Type :=
| Return (a : A)
| Throw (e : JsError).
Arguments Return {A} a.
Arguments Throw {A} e.

Definition isThrow {A} (c : Completion A) : bool :=
  match c with Throw _ => true | Return _ => false end.

(** [String.prototype.startsWith] and [String.prototype.includes].  Strings
    are byte strings here; every needle the code searches for is ASCII, so
    searching bytes of the UTF-8 form finds what the UTF-16 search finds. *)
Fixpoint startsWith (needle s : string) : bool :=
  match needle, s with
  | EmptyString, _ => true
  | String a needle', String b s' =>
      if Ascii.eqb a b then startsWith needle' s' else false
  | String _ _, EmptyString => false
  end.

Fixpoint includes (needle s : string) : bool :=
  match s with
  | EmptyString => startsWith needle EmptyString
  | String _ s' => startsWith needle s || includes needle s'
  end.

(** [s.split(sep)] for a one-character separator. *)
Fixpoint split (sep : ascii) (s : string) : list string :=
  match s with
  | EmptyString => [EmptyString]
  | String c rest =>
      if Ascii.eqb c sep then EmptyString :: split sep rest
      else match split sep rest with
           | w :: ws => String c w :: ws
           | [] => [String c EmptyString]
           end
  end.

(** Truthiness of a possibly [undefined] string: defined and not empty. *)
Definition truthy (s : option string) : bool :=
  match s with
  | Some (String _ _) => true
  | _ => false
  end.

(** One value of the registry's [models] object: an array of model
    descriptors (the code here looks at its length only) or any other JSON
    value, of which only the truthiness matters. *)
Inductive ModelsValue : Type :=
| ModelArray (len : nat)
| OtherValue (truthyValue : bool).

(** ** Registry resolver *)

Module Registry.

(** The parsed JSON body, as far as the validation distinguishes it. *)
Inductive RegistryData : Type :=
| DataNotObject                     (* !data || typeof data !== 'object' *)
| DataNoModels                      (* !data.models || typeof data.models !== 'object' *)
| DataModels (entries : list (string * ModelsValue)).
                                    (* Object.entries(data.models), in order *)

Record Response := mkResponse {
  ok : bool;
  status : string;                  (* already rendered as text *)
  statusText : string;
  text : option string;             (* None: response.text() rejects *)
  json : Completion RegistryData;   (* response.json() *)
}.

(** What one [fetch(apiUrl, ...)] does: it rejects (with an error named
    AbortError when the 10 second timer fired) or yields a response. *)
Inductive FetchOutcome : Type :=
| Rejects (e : JsError)
| Responds (r : Response).

Inductive Event : Type :=
| EvFetch
| EvSleep (ms : Z).

(** The module-level state the resolver reads and writes, with the
    environment it runs in. [fetched] counts the requests issued so far;
    the network is a function from that count to the outcome. *)
Record World := mkWorld {
  hasWindow : bool;                 (* typeof window !== 'undefined' *)
  availableLanguagePairsCache : option (gmap string (list string));
  fetched : nat;
  log : list Event;
}.

Definition clearBergamotLanguagePairsCache (w : World) : World :=
  mkWorld (hasWindow w) None (fetched w) (log w).

Definition emit (ev : Event) (w : World) : World :=
  mkWorld (hasWindow w) (availableLanguagePairsCache w) (fetched w) (log w ++ [ev]).

Definition countFetch (w : World) : World :=
  mkWorld (hasWindow w) (availableLanguagePairsCache w) (S (fetched w)) (log w).

Definition setCache (pairs : gmap string (list string)) (w : World) : World :=
  mkWorld (hasWindow w) (Some pairs) (fetched w) (log w).

(** The loop over [Object.entries(data.models)] that fills [pairs]. *)
Definition addPair (pairs : gmap string (list string))
    (entry : string * ModelsValue) : gmap string (list string) :=
  let parts := split "-" (fst entry) in
  let source := parts !! 0%nat in
  let target := parts !! 1%nat in
  match source, target, snd entry with
  | Some s, Some t, ModelArray (S _) =>
      if truthy source && truthy target
      then <[s := default [] (pairs !! s) ++ [t]]> pairs
      else pairs
  | _, _, _ => pairs
  end.

Definition parsePairs (entries : list (string * ModelsValue))
    : gmap string (list string) :=
  foldl addPair ∅ entries.

(** The body of the [try] block of one attempt, from the response on. *)
Definition attemptBody (o : FetchOutcome) : Completion (gmap string (list string)) :=
  match o with
  | Rejects e => Throw e
  | Responds r =>
      if negb (ok r) then
        Throw (newError ("Registry fetch failed: " +:+ status r +:+ " " +:+
                         statusText r +:+ " - " +:+ default "Unknown error" (text r)))
      else
        match json r with
        | Throw e => Throw e
        | Return DataNotObject =>
            Throw (newError "Invalid registry response: expected object")
        | Return DataNoModels =>
            Throw (newError ("Invalid registry format: missing or invalid " +:+ dquote +:+
                             "models" +:+ dquote +:+ " field"))
        | Return (DataModels entries) =>
            let pairs := parsePairs entries in
            if decide (size pairs = 0%nat)
            then Throw (newError "Registry fetched but no valid language pairs found")
            else Return pairs
        end
  end.

(** [Math.min(1000 * Math.pow(2, attempt), 5000)] *)
Definition backoffDelay (attempt : nat) : Z :=
  Z.min (1000 * 2 ^ Z.of_nat attempt) 5000.

(** The [for (attempt = 0; attempt < retries; attempt++)] loop; [left] is
    the number of iterations still to run, [retries - attempt]. *)
Fixpoint attempts (net : nat → FetchOutcome) (retries attempt left : nat)
    (w : World) : gmap string (list string) * World :=
  match left with
  | O => (∅, w)                                    (* return new Map() *)
  | S left' =>
      let o := net (fetched w) in
      let w1 := countFetch (emit EvFetch w) in
      match attemptBody o with
      | Return pairs => (pairs, setCache pairs w1)
      | Throw error =>
          if String.eqb (name error) "AbortError" then (∅, w1)   (* break *)
          else if (attempt <? retries - 1)%nat then
            attempts net retries (S attempt) left'
                     (emit (EvSleep (backoffDelay attempt)) w1)
          else attempts net retries (S attempt) left' w1
      end
  end.

Definition getAvailableBergamotLanguagePairs (net : nat → FetchOutcome)
    (retries : nat) (w : World) : gmap string (list string) * World :=
  if negb (hasWindow w) then (∅, w)
  else match availableLanguagePairsCache w with
       | Some cached => (cached, w)
       | None => attempts net retries 0 retries w
       end.

(** The default value of the [retries] parameter. *)
Definition defaultRetries : nat := 3.

(** [pairs.get(source)?.includes(target) || false] *)
Definition hasPath (pairs : gmap string (list string)) (source target : string) : bool :=
  match pairs !! source with
  | Some targets => bool_decide (target ∈ targets)
  | None => false
  end.

Definition isBergamotLanguagePairAvailable (net : nat → FetchOutcome)
    (sourceLang targetLang : string) (w : World) : bool * World :=
  let '(pairs, w') := getAvailableBergamotLanguagePairs net defaultRetries w in
  (hasPath pairs sourceLang targetLang, w').

(** The log of [n] attempts in a row, the first one numbered [attempt]:
    a request, then a sleep and a request for each further attempt. *)
Fixpoint backoffTrace (attempt n : nat) : list Event :=
  match n with
  | O => []
  | S n' => EvSleep (backoffDelay attempt) :: EvFetch :: backoffTrace (S attempt) n'
  end.

Definition attemptsTrace (attempt n : nat) : list Event :=
  match n with
  | O => []
  | S n' => EvFetch :: backoffTrace attempt n'
  end.

(** A browser page that has not resolved the registry yet, and a network
    on which every request fails with a plain network error. *)
Definition freshWorld : World := mkWorld true None 0 [].
Definition deadNetwork : nat → FetchOutcome :=
  λ _, Rejects (mkError "TypeError" "Failed to fetch").

(** *** Path resolver *)

Record TranslationPairInfo := mkInfo {
  available : bool;
  isDirect : bool;
  isPivot : bool;
  pivotPath : option string;        (* None: the property is absent *)
  modelCount : nat;
}.

Definition pivotLang : string := "en".

(** [getTranslationPairInfo] after its [await] of the registry: [pairs] is
    the map [getAvailableBergamotLanguagePairs] resolved to. *)
Definition pairInfo (pairs : gmap string (list string))
    (source target : string) : TranslationPairInfo :=
  if String.eqb source target then mkInfo false false false None 0
  else
    let hasDirectPath := hasPath pairs source target in
    if hasDirectPath then mkInfo true true false None 1
    else if String.eqb source pivotLang || String.eqb target pivotLang
    then mkInfo false false false None 0
    else
      let hasSourceToEn := hasPath pairs source pivotLang in
      let hasEnToTarget := hasPath pairs pivotLang target in
      if hasSourceToEn && hasEnToTarget
      then mkInfo true false true
                  (Some (source +:+ " → " +:+ pivotLang +:+ " → " +:+ target)) 2
      else mkInfo false false false None 0.

(** The registry lists [target] as reachable from [source]. *)
Definition reachable (pairs : gmap string (list string)) (source target : string) : Prop :=
  ∃ targets, pairs !! source = Some targets ∧ target ∈ targets.

Definition unavailableInfo : TranslationPairInfo := mkInfo false false false None 0.
Definition directInfo : TranslationPairInfo := mkInfo true true false None 1.
Definition pivotInfo (source target : string) : TranslationPairInfo :=
  mkInfo true false true (Some (source +:+ " → en → " +:+ target)) 2.

(** The registry of the specification's example: ja→[en], en→[fr]. *)
Definition exampleRegistry : gmap string (list string) :=
  <["ja" := ["en"]]> (<["en" := ["fr"]]> ∅).

Definition getTranslationPairInfo (net : nat → FetchOutcome)
    (source target : string) (w : World) : TranslationPairInfo * World :=
  let '(pairs, w') := getAvailableBergamotLanguagePairs net defaultRetries w in
  (pairInfo pairs source target, w').

End Registry.

(** ** Progress arithmetic of [CustomBacking] *)

Module Progress.

Local Open Scope Q_scope.

(** JavaScript numbers are taken as exact rationals: [Math.round] is
    [⌊x + 1/2⌋], [x % m] on non-negative numbers is [x - m⌊x/m⌋]. *)
Definition mathRound (x : Q) : Z := Qfloor (x + (1 # 2)).
Definition jsMod (x m : Q) : Q := x - m * inject_Z (Qfloor (x / m)).
Definition Qltb (x y : Q) : bool := negb (Qle_bool y x).
Definition Qmin (x y : Q) : Q := if Qle_bool x y then x else y.

(** What a step of the backing shows to the outside: a call of the
    caller's [onProgress], or the weight printed by [console.log]. *)
Inductive Output : Type :=
| OnProgress (value : Z)
| ConsoleWeight (weight : Q).

(** The fields of a [CustomBacking] that the progress code reads and
    writes. [dateNowCalls] counts the calls of [Date.now()] so far; the
    clock is a function from that count to the time in milliseconds. *)
Record Backing := mkBacking {
  hasOnProgress : bool;
  filesDownloaded : Z;
  totalFilesEstimate : Z;
  isPivot : bool;
  lastProgressUpdate : Z;
  sourceLang : string;
  targetLang : string;
  dateNowCalls : nat;
}.

(** The backing as its constructor and field initialisers leave it. *)
Definition newBacking (onProgress : bool) (source target : string) : Backing :=
  mkBacking onProgress 0 3 false 0 source target 0.

Definition Step : Type := Backing → Backing * list Output.

Definition skip : Step := λ b, (b, []).

Definition andThen (f g : Step) : Step :=
  λ b, let '(b1, o1) := f b in
       let '(b2, o2) := g b1 in
       (b2, o1 ++ o2)%list.

Infix ">>" := andThen (at level 61, left associativity).

Definition reports (out : list Output) : list Z :=
  omap (λ o, match o with OnProgress v => Some v | ConsoleWeight _ => None end) out.

Definition updateProgress (clock : nat → Z)
    (baseProgress fileProgress fileWeight : Q) : Step :=
  λ b,
    if hasOnProgress b then
      let progress := baseProgress + (fileProgress * fileWeight / 100) in
      let clampedProgress := Z.min 95 (Z.max 0 (mathRound progress)) in
      let now := clock (dateNowCalls b) in
      let b1 := mkBacking (hasOnProgress b) (filesDownloaded b) (totalFilesEstimate b)
                  (isPivot b) (lastProgressUpdate b) (sourceLang b) (targetLang b)
                  (S (dateNowCalls b)) in
      if negb (clampedProgress =? lastProgressUpdate b)%Z
         || (100 <? now - lastProgressUpdate b)%Z
      then (mkBacking (hasOnProgress b) (filesDownloaded b) (totalFilesEstimate b)
              (isPivot b) clampedProgress (sourceLang b) (targetLang b)
              (S (dateNowCalls b)),
            [OnProgress clampedProgress])
      else (b1, [])
    else (b, []).

(** [data.models?.[key]] is truthy. *)
Fixpoint truthyAt (entries : list (string * ModelsValue)) (key : string) : bool :=
  match entries with
  | [] => false
  | (k, v) :: rest =>
      if String.eqb k key
      then match v with ModelArray _ => true | OtherValue t => t end
      else truthyAt rest key
  end.

(** The progress and bookkeeping part of [loadModelRegistery], for a
    registry body whose [models] object has the given entries. (The list
    of file descriptors the method returns is not modelled: no statement
    below depends on it.) *)
Definition loadModelRegistery (clock : nat → Z)
    (entries : list (string * ModelsValue)) : Step :=
  updateProgress clock 0 0 0 >>
  updateProgress clock 5 100 0 >>
  (λ b,
     let pivotLang := "en"%string in
     let pivot := negb (String.eqb (sourceLang b) pivotLang)
                  && negb (String.eqb (targetLang b) pivotLang)
                  && truthyAt entries (sourceLang b +:+ "-" +:+ pivotLang)
                  && truthyAt entries (pivotLang +:+ "-" +:+ targetLang b) in
     (mkBacking (hasOnProgress b) 0 (if pivot then 6 else 3)%Z pivot
        (lastProgressUpdate b) (sourceLang b) (targetLang b) (dateNowCalls b), [])).

(** The response to the request for one model file, as far as the
    successful path of [fetch] looks at it. *)
Record FileResponse := mkFileResponse {
  contentLength : option Z;         (* parseInt of the header; None: absent *)
  cached : bool;                    (* x-cache HIT, fromCache or wasCached *)
  hasBody : bool;                   (* response.body is not null *)
  chunks : list (list Z);           (* the byte chunks the body yields *)
}.

(** [url.endsWith(suffix)] *)
Definition endsWith (suffix url : string) : bool :=
  startsWith (String.rev suffix) (String.rev url).

Definition isGzipData (bytes : list Z) : bool :=
  match bytes with
  | b0 :: b1 :: _ => (b0 =? 31)%Z && (b1 =? 139)%Z
  | _ => false
  end.

(** The weight [fetch] works out from the file's role. *)
Definition fileWeight (pivot : bool) (url : string) : Q :=
  if includes "/model." url || includes "model." url
  then (if pivot then 35 # 100 else 70 # 100)
  else if includes "vocab" url || includes "vocab." url
  then (if pivot then 15 # 100 else 20 # 100)
  else if includes "lex" url || includes "lexical" url
  then (if pivot then 5 # 100 else 10 # 100)
  else 25 # 100.

Definition fileDone : Step :=
  λ b, (mkBacking (hasOnProgress b) (filesDownloaded b + 1)%Z (totalFilesEstimate b)
          (isPivot b) (lastProgressUpdate b) (sourceLang b) (targetLang b)
          (dateNowCalls b), []).

(** The [while (true)] loop over [reader.read()]. *)
Fixpoint readChunks (clock : nat → Z) (baseProgress fileAllocation : Q)
    (totalBytes downloadedBytes : Z) (rest : list (list Z)) : Step :=
  match rest with
  | [] => skip
  | value :: rest' =>
      let downloadedBytes := (downloadedBytes + Z.of_nat (length value))%Z in
      (λ b,
         if hasOnProgress b then
           let fileProgress :=
             Qmin 90 (inject_Z downloadedBytes / inject_Z totalBytes * 100) in
           if Qltb (jsMod fileProgress 5) (1 # 10)
              || (downloadedBytes mod (50 * 1024) =? 0)%Z
           then updateProgress clock baseProgress fileProgress fileAllocation b
           else (b, [])
         else (b, []))
      >> readChunks clock baseProgress fileAllocation totalBytes downloadedBytes rest'
  end.

(** [fetch(url, ...)] on its successful path: the response is OK, nothing
    is aborted and decompression works. *)
Definition fetch (clock : nat → Z) (url : string) (r : FileResponse) : Step :=
  λ b,
    let weight := fileWeight (isPivot b) url in
    let progressRange := 85 in
    let baseProgress :=
      5 + (inject_Z (filesDownloaded b) / inject_Z (totalFilesEstimate b)) * progressRange in
    let fileAllocation := progressRange / inject_Z (totalFilesEstimate b) in
    let update := λ fileProgress,
      updateProgress clock baseProgress fileProgress fileAllocation in
    let isGzipped := endsWith ".gz" url || isGzipData (concat (chunks r)) in
    let totalBytes := default 0%Z (contentLength r) in
    ((λ b, (b, [ConsoleWeight weight])) >>
     update 0 >>
     (if cached r then
        update 10 >> update 50 >>
        (if isGzipped then update 80 >> fileDone >> update 100
         else fileDone >> update 100)
      else if negb (totalBytes =? 0)%Z && hasBody r then
        update 5 >>
        readChunks clock baseProgress fileAllocation totalBytes 0 (chunks r) >>
        (if isGzipped then update 90 >> update 100 >> fileDone
         else fileDone >> update 100)
      else
        update 30 >>
        (if isGzipped then update 70 >> fileDone >> update 100
         else fileDone >> update 100))) b.


(** A list of progress values never goes down. *)
Fixpoint nondecreasing (l : list Z) : bool :=
  match l with
  | x :: (y :: _) as rest => (x <=? y)%Z && nondecreasing rest
  | _ => true
  end.

(** A clock for the examples: some time in 2023, 150 ms between reads. *)
Definition exampleClock : nat → Z := λ n, (1700000000000 + 150 * Z.of_nat n)%Z.

(** A model file served from the browser cache, not compressed. *)
Definition cachedFile : FileResponse :=
  mkFileResponse (Some 4%Z) true true [[1; 2; 3; 4]%Z].

Definition modelUrl : string := "https://storage.example/models/jaen/model.jaen.intgemm.alphas.bin".
Definition vocabUrl : string := "https://storage.example/models/jaen/vocab.jaen.spm".
Definition lexUrl : string := "https://storage.example/models/jaen/lex.50.50.jaen.s2t.bin".

(** The backing of a direct ja→en load after [loadModelRegistery]. *)
Definition directBacking : Backing :=
  (loadModelRegistery exampleClock [("ja-en"%string, ModelArray 1)]
     (newBacking true "ja" "en")).1.

(** What the engine asks of the backing while it loads a model. *)
Inductive BackingCall : Type :=
| CallLoadModelRegistery (entries : list (string * ModelsValue))
| CallFetch (url : string) (r : FileResponse).

Definition backingCall (clock : nat → Z) (c : BackingCall) : Step :=
  match c with
  | CallLoadModelRegistery entries => loadModelRegistery clock entries
  | CallFetch url r => fetch clock url r
  end.

End Progress.

(** ** RPC transport: the [call] / [message] pair of [CustomBacking.loadWorker] *)

Module Rpc.

(** A call argument, as far as [String(arg)] tells arguments apart. *)
Inductive JsValue : Type :=
| JsString (s : string)
| JsBool (b : bool)
| JsObject
| JsNull
| JsUndefined.

(** [String(arg)] *)
Definition toString (v : JsValue) : string :=
  match v with
  | JsString s => s
  | JsBool true => "true"
  | JsBool false => "false"
  | JsObject => "[object Object]"
  | JsNull => "null"
  | JsUndefined => "undefined"
  end.

(** [parts.join(sep)] *)
Fixpoint join (sep : string) (parts : list string) : string :=
  match parts with
  | [] => ""
  | [x] => x
  | x :: rest => x +:+ sep +:+ join sep rest
  end.

(** The [callsite] recorded with a pending call. *)
Record Callsite := mkCallsite {
  cs_message : string;
  cs_stack : option string;
}.

(** An entry of the [pending] map. [accept] and [reject] settle the
    promise that [call] returned; the entry names that promise. *)
Record PendingCall := mkPending {
  promise : nat;
  callsite : option Callsite;
}.

(** The error a response carries, and the error a promise is rejected with. *)
Record ErrorInfo := mkErrorInfo {
  err_message : string;
  err_stack : option string;
}.

(** [event.data] of a message from the worker. *)
Record ResponseMessage := mkResponseMessage {
  msg_id : nat;
  msg_result : JsValue;
  msg_error : option ErrorInfo;     (* None: error === undefined *)
}.

Record RequestMessage := mkRequestMessage {
  req_id : nat;
  req_name : string;
  req_args : list JsValue;
}.

Inductive Settlement : Type :=
| Accepted (result : JsValue)
| Rejected (err : ErrorInfo).

Record Transport := mkTransport {
  serial : nat;
  pending : gmap nat PendingCall;
  posted : list RequestMessage;            (* worker.postMessage, in order *)
  settled : list (nat * Settlement);       (* promises settled, in order *)
  console : list ResponseMessage;          (* console.debug of unknown ids *)
}.

Definition newTransport : Transport := mkTransport 0 ∅ [] [] [].

(** The text [`${name}(${args.map(arg => String(arg)).join(', ')})`]. *)
Definition describe (name : string) (args : list JsValue) : string :=
  name +:+ "(" +:+ join ", " (toString <$> args) +:+ ")".

(** [call(name, ...args)]; [stack] is [new Error().stack] at the call. The
    result is the id of the call, which is also the promise returned. *)
Definition call (name : string) (args : list JsValue) (stack : option string)
    (t : Transport) : nat * Transport :=
  let id := S (serial t) in
  (id,
   mkTransport id
     (<[id := mkPending id (Some (mkCallsite (describe name args) stack))]> (pending t))
     (posted t ++ [mkRequestMessage id name args])
     (settled t)
     (console t)).

(** [callsite?.message || 'unknown'] and [callsite?.stack || ''] *)
Definition callsiteMessage (c : option Callsite) : string :=
  match c with
  | Some (mkCallsite (String a m) _) => String a m
  | _ => "unknown"
  end.

Definition callsiteStack (c : option Callsite) : string :=
  match c with
  | Some (mkCallsite _ (Some st)) => st
  | _ => ""
  end.

Definition newline : string := String (ascii_of_nat 10) EmptyString.

(** The error built with [Object.assign(new Error(), error, {message, stack})]. *)
Definition augment (error : ErrorInfo) (c : option Callsite) : ErrorInfo :=
  mkErrorInfo
    (err_message error +:+ " (response to " +:+ callsiteMessage c +:+ ")")
    (match err_stack error with
     | Some (String a st) => Some (String a st +:+ newline +:+ callsiteStack c)
     | _ => c ≫= cs_stack
     end).

(** The worker's [message] listener. *)
Definition onMessage (m : ResponseMessage) (t : Transport) : Transport :=
  match pending t !! msg_id m with
  | None =>
      mkTransport (serial t) (pending t) (posted t) (settled t) (console t ++ [m])
  | Some entry =>
      let pending' := delete (msg_id m) (pending t) in
      match msg_error m with
      | Some error =>
          mkTransport (serial t) pending' (posted t)
            (settled t ++ [(promise entry, Rejected (augment error (callsite entry)))])
            (console t)
      | None =>
          mkTransport (serial t) pending' (posted t)
            (settled t ++ [(promise entry, Accepted (msg_result m))])
            (console t)
      end
  end.


End Rpc.

(** ** Loader coordinator *)

Module Loader.

(** [`${sourceLang}-${targetLang}`] *)
Definition modelKey (sourceLang targetLang : string) : string :=
  sourceLang +:+ "-" +:+ targetLang.

(** The arguments of one call of [loadBergamotModel]. Abort signals,
    abort controllers (each identified with its signal), translators and
    progress callbacks are objects; a number stands for each. *)
Record Request := mkRequest {
  sourceLang : string;
  targetLang : string;
  abortSignal : option nat;
  onProgress : option nat;
}.

Definition requestKey (req : Request) : string :=
  modelKey (sourceLang req) (targetLang req).

(** Where a call of [loadBergamotModel] is suspended. *)
Inductive Pc : Type :=
| Polling                           (* getBergamotTranslator: await of the 100 ms timer *)
| Importing (controller : nat)      (* getBergamotTranslator: await import(...) *)
| GotTranslator (r : Completion nat)(* getBergamotTranslator settled, caller not resumed yet *)
| Trial (translator : nat)          (* await translator.translate({... text: 'test' ...}) *)
| Trailer (stage : nat) (translator : nat)   (* the timers of 300, 200 and 200 ms *)
| Done (r : Completion nat).        (* loadBergamotModel settled *)

Record Task := mkTask { request : Request; pc : Pc }.

(** An entry of [activeLoaders]. *)
Record LoadRecord := mkLoadRecord {
  abortController : nat;
  loaderOnProgress : option nat;
}.

(** A translator with its [CustomBacking]: the controller whose signal the
    backing watches, the callback it reports to, and its progress fields. *)
Record TranslatorObject := mkTranslatorObject {
  controller : nat;
  callback : option nat;
  backing : Progress.Backing;
}.

Inductive Event : Type :=
| EvRegister (key : string) (controller : nat)
| EvSleep (task : nat) (ms : Z)
| EvCreate (task : nat) (translator : nat)
| EvProgress (callback : nat) (value : Z)
| EvTranslate (task : nat) (translator : nat)
| EvTrial (task : nat) (translator : nat) (passed : bool)
| EvBackingThrow (translator : nat) (e : JsError)
| EvSettle (task : nat) (r : Completion nat).

(** The module-level maps, the objects reachable from them, the suspended
    calls and what has been observed so far. *)
Record State := mkState {
  bergamotTranslators : gmap string nat;
  activeLoaders : gmap string LoadRecord;
  abortedSignals : gset nat;        (* callers' signals that have fired *)
  abortedControllers : gset nat;    (* controllers of loads that have been aborted *)
  listeners : gmap nat (list nat);  (* signal ↦ controllers its abort handlers abort *)
  translators : gmap nat TranslatorObject;
  nextId : nat;
  tasks : gmap nat Task;
  trace : list Event;
}.

Definition initial : State := mkState ∅ ∅ ∅ ∅ ∅ ∅ 0 ∅ [].

Definition setCache (f : gmap string nat → gmap string nat) (s : State) : State :=
  mkState (f (bergamotTranslators s)) (activeLoaders s) (abortedSignals s)
          (abortedControllers s) (listeners s) (translators s)
          (nextId s) (tasks s) (trace s).
Definition setLoaders (f : gmap string LoadRecord → gmap string LoadRecord)
    (s : State) : State :=
  mkState (bergamotTranslators s) (f (activeLoaders s)) (abortedSignals s)
          (abortedControllers s) (listeners s) (translators s)
          (nextId s) (tasks s) (trace s).
Definition setAbortedSignals (f : gset nat → gset nat) (s : State) : State :=
  mkState (bergamotTranslators s) (activeLoaders s) (f (abortedSignals s))
          (abortedControllers s) (listeners s) (translators s)
          (nextId s) (tasks s) (trace s).
Definition setAbortedControllers (f : gset nat → gset nat) (s : State) : State :=
  mkState (bergamotTranslators s) (activeLoaders s) (abortedSignals s)
          (f (abortedControllers s)) (listeners s) (translators s)
          (nextId s) (tasks s) (trace s).
Definition setListeners (f : gmap nat (list nat) → gmap nat (list nat))
    (s : State) : State :=
  mkState (bergamotTranslators s) (activeLoaders s) (abortedSignals s)
          (abortedControllers s) (f (listeners s)) (translators s)
          (nextId s) (tasks s) (trace s).
Definition setTranslators (f : gmap nat TranslatorObject → gmap nat TranslatorObject)
    (s : State) : State :=
  mkState (bergamotTranslators s) (activeLoaders s) (abortedSignals s)
          (abortedControllers s) (listeners s) (f (translators s))
          (nextId s) (tasks s) (trace s).
Definition allocate (s : State) : State :=
  mkState (bergamotTranslators s) (activeLoaders s) (abortedSignals s)
          (abortedControllers s) (listeners s) (translators s)
          (S (nextId s)) (tasks s) (trace s).
Definition setPc (tid : nat) (req : Request) (p : Pc) (s : State) : State :=
  mkState (bergamotTranslators s) (activeLoaders s) (abortedSignals s)
          (abortedControllers s) (listeners s) (translators s)
          (nextId s) (<[tid := mkTask req p]> (tasks s)) (trace s).
Definition emit (evs : list Event) (s : State) : State :=
  mkState (bergamotTranslators s) (activeLoaders s) (abortedSignals s)
          (abortedControllers s) (listeners s) (translators s)
          (nextId s) (tasks s) (trace s ++ evs).

(** [abortSignal?.aborted] *)
Definition signalAborted (s : State) (signal : option nat) : bool :=
  match signal with
  | Some sig => bool_decide (sig ∈ abortedSignals s)
  | None => false
  end.

(** [if (onProgress) onProgress(value)] *)
Definition report (cb : option nat) (value : Z) (s : State) : State :=
  match cb with
  | Some c => emit [EvProgress c value] s
  | None => s
  end.

(** [abortSignal?.addEventListener('abort', abortHandler)] and its removal,
    where [abortHandler] aborts controller [c]. *)
Definition addAbortHandler (signal : option nat) (c : nat) (s : State) : State :=
  match signal with
  | Some sig => setListeners (λ l, <[sig := default [] (l !! sig) ++ [c]]> l) s
  | None => s
  end.

Definition removeAbortHandler (signal : option nat) (c : nat) (s : State) : State :=
  match signal with
  | Some sig =>
      setListeners (λ l, <[sig := filter (λ c', c' ≠ c) (default [] (l !! sig))]> l) s
  | None => s
  end.

(** getBergamotTranslator: from [new AbortController()] to the
    [await import(...)]. *)
Definition registerLoader (tid : nat) (req : Request) (s : State) : State :=
  let c := nextId s in
  setPc tid req (Importing c)
    (emit [EvRegister (requestKey req) c]
       (setLoaders (insert (requestKey req) (mkLoadRecord c (onProgress req)))
          (addAbortHandler (abortSignal req) c (allocate s)))).

(** getBergamotTranslator: the test of the [while] loop and what follows
    the loop when the test fails. *)
Definition waitLoop (tid : nat) (req : Request) (s : State) : State :=
  if bool_decide (is_Some (activeLoaders s !! requestKey req))
     && negb (signalAborted s (abortSignal req))
  then setPc tid req Polling (emit [EvSleep tid 100] s)
  else if signalAborted s (abortSignal req)
  then setPc tid req (GotTranslator (Throw (newError "Operation aborted"))) s
  else registerLoader tid req s.

(** getBergamotTranslator: from its entry to its first suspension. *)
Definition enterGetBergamotTranslator (tid : nat) (req : Request) (s : State) : State :=
  if signalAborted s (abortSignal req)
  then setPc tid req (GotTranslator (Throw (newError "Operation aborted"))) s
  else match bergamotTranslators s !! requestKey req with
       | Some tr => setPc tid req (GotTranslator (Return tr)) s
       | None =>
           if bool_decide (is_Some (activeLoaders s !! requestKey req))
           then waitLoop tid req s
           else registerLoader tid req s
       end.

(** loadBergamotModel: from its entry to its first suspension. *)
Definition start (tid : nat) (req : Request) (s : State) : State :=
  match tasks s !! tid with
  | Some _ => s
  | None =>
      if signalAborted s (abortSignal req)
      then emit [EvSettle tid (Throw (newError "Operation aborted"))]
             (setPc tid req (Done (Throw (newError "Operation aborted"))) s)
      else match bergamotTranslators s !! requestKey req with
           | Some tr =>
               emit [EvSettle tid (Return tr)]
                 (setPc tid req (Done (Return tr)) (report (onProgress req) 100 s))
           | None => enterGetBergamotTranslator tid req s
           end
  end.

(** loadBergamotModel: its outer [catch] and the rejection that follows. *)
Definition failLoad (tid : nat) (req : Request) (e : JsError) (s : State) : State :=
  emit [EvSettle tid (Throw e)]
    (setPc tid req (Done (Throw e)) (setCache (delete (requestKey req)) s)).

(** The [finally] block of getBergamotTranslator. *)
Definition cleanUpLoader (req : Request) (c : nat) (s : State) : State :=
  removeAbortHandler (abortSignal req) c (setLoaders (delete (requestKey req)) s).

(** getBergamotTranslator resumes after [await import(...)]: [None] when
    the import resolved, the error when it rejected. *)
Definition importSettled (tid : nat) (outcome : option JsError) (s : State) : State :=
  match tasks s !! tid with
  | Some (mkTask req (Importing c)) =>
      match outcome with
      | None =>
          let tr := nextId s in
          let object := mkTranslatorObject c (onProgress req)
                          (Progress.newBacking (bool_decide (is_Some (onProgress req)))
                             (sourceLang req) (targetLang req)) in
          setPc tid req (GotTranslator (Return tr))
            (cleanUpLoader req c
               (report (onProgress req) 5
                  (emit [EvCreate tid tr]
                     (setCache (insert (requestKey req) tr)
                        (setTranslators (insert tr object) (allocate s))))))
      | Some e =>
          setPc tid req (GotTranslator (Throw e))
            (cleanUpLoader req c (setCache (delete (requestKey req)) s))
      end
  | _ => s
  end.

(** A timer a call is waiting for has fired. *)
Definition timerFired (tid : nat) (s : State) : State :=
  match tasks s !! tid with
  | Some (mkTask req Polling) =>
      match bergamotTranslators s !! requestKey req with
      | Some tr => setPc tid req (GotTranslator (Return tr)) s
      | None => waitLoop tid req s
      end
  | Some (mkTask req (Trailer 0 tr)) =>
      setPc tid req (Trailer 1 tr) (emit [EvSleep tid 200] (report (onProgress req) 90 s))
  | Some (mkTask req (Trailer 1 tr)) =>
      setPc tid req (Trailer 2 tr) (emit [EvSleep tid 200] (report (onProgress req) 95 s))
  | Some (mkTask req (Trailer _ tr)) =>
      emit [EvSettle tid (Return tr)]
        (setPc tid req (Done (Return tr)) (report (onProgress req) 100 s))
  | _ => s
  end.

(** loadBergamotModel resumes after [await getBergamotTranslator(...)]. *)
Definition resume (tid : nat) (s : State) : State :=
  match tasks s !! tid with
  | Some (mkTask req (GotTranslator (Throw e))) => failLoad tid req e s
  | Some (mkTask req (GotTranslator (Return tr))) =>
      if signalAborted s (abortSignal req)
      then failLoad tid req (newError "Operation aborted") s
      else setPc tid req (Trial tr) (emit [EvTranslate tid tr] s)
  | _ => s
  end.

(** loadBergamotModel resumes after the trial translation: [None] when
    [translate] resolved, the error when it rejected. *)
Definition trialSettled (tid : nat) (outcome : option JsError) (s : State) : State :=
  match tasks s !! tid with
  | Some (mkTask req (Trial tr)) =>
      match outcome with
      | None =>
          match onProgress req with
          | Some _ =>
              setPc tid req (Trailer 0 tr)
                (emit [EvTrial tid tr true; EvSleep tid 300] s)
          | None =>
              emit [EvSettle tid (Return tr)]
                (setPc tid req (Done (Return tr)) (emit [EvTrial tid tr true] s))
          end
      | Some e =>
          let e' :=
            if includes "aborted" (message e) then e
            else newError ("Bergamot model for " +:+ sourceLang req +:+ "-" +:+
                           targetLang req +:+ " is not available or failed to load: " +:+
                           message e) in
          failLoad tid req e' (emit [EvTrial tid tr false] s)
      end
  | _ => s
  end.

(** [checkAborted()] of the backing of translator [tr]: both signals it
    looks at are the signal of the controller the backing was built with. *)
Definition checkAborted (s : State) (object : TranslatorObject) : Completion unit :=
  if bool_decide (controller object ∈ abortedControllers s)
     || bool_decide (controller object ∈ abortedControllers s)
  then Throw (newError "Operation aborted by user")
  else Return tt.

(** The engine calls [loadModelRegistery] or [fetch] of a translator's
    backing. (The call is taken as one step; [checkAborted] is evaluated
    at its start.) *)
Definition engineCall (clock : nat → Z) (tr : nat) (c : Progress.BackingCall)
    (s : State) : State :=
  match translators s !! tr with
  | Some object =>
      match checkAborted s object with
      | Throw e => emit [EvBackingThrow tr e] s
      | Return _ =>
          let '(b', out) := Progress.backingCall clock c (backing object) in
          let s' := setTranslators
                      (insert tr (mkTranslatorObject (controller object)
                                    (callback object) b')) s in
          match callback object with
          | Some cb => emit (EvProgress cb <$> Progress.reports out) s'
          | None => s'
          end
      end
  | None => s
  end.

Definition cancelBergamotModelLoad (sourceLang targetLang : string) (s : State) : State :=
  let key := modelKey sourceLang targetLang in
  match activeLoaders s !! key with
  | Some loader =>
      setCache (delete key)
        (setLoaders (delete key)
           (setAbortedControllers (λ a, {[abortController loader]} ∪ a) s))
  | None => s
  end.

(** The owner of a signal aborts it: the signal fires once, and its abort
    handlers abort their controllers. *)
Definition abort (signal : nat) (s : State) : State :=
  if bool_decide (signal ∈ abortedSignals s) then s
  else setAbortedControllers
         (λ a, list_to_set (default [] (listeners s !! signal)) ∪ a)
         (setAbortedSignals (λ a, {[signal]} ∪ a) s).

(** What can happen next. *)
Inductive Input : Type :=
| Start (tid : nat) (req : Request)
| TimerFired (tid : nat)
| ImportSettled (tid : nat) (outcome : option JsError)
| Resume (tid : nat)
| TrialSettled (tid : nat) (outcome : option JsError)
| EngineCall (tr : nat) (c : Progress.BackingCall)
| Cancel (sourceLang targetLang : string)
| Abort (signal : nat).

Definition step (clock : nat → Z) (i : Input) (s : State) : State :=
  match i with
  | Start tid req => start tid req s
  | TimerFired tid => timerFired tid s
  | ImportSettled tid outcome => importSettled tid outcome s
  | Resume tid => resume tid s
  | TrialSettled tid outcome => trialSettled tid outcome s
  | EngineCall tr c => engineCall clock tr c s
  | Cancel sourceLang targetLang => cancelBergamotModelLoad sourceLang targetLang s
  | Abort signal => abort signal s
  end.

Definition run (clock : nat → Z) (inputs : list Input) (s : State) : State :=
  foldl (λ s i, step clock i s) s inputs.


(** The number of translators (with their backings) constructed. *)
Definition isCreate (e : Event) : bool :=
  match e with EvCreate _ _ => true | _ => false end.

Definition created (evs : list Event) : nat :=
  length (List.filter isCreate evs).

(** A trial translation of translator [tr] has succeeded. *)
Definition trialPassed (tr : nat) (evs : list Event) : bool :=
  existsb (λ e, match e with
                | EvTrial _ tr' true => (tr' =? tr)%nat
                | _ => false
                end) evs.

(** *** A load of ja→en, used in the examples

    The caller passes signal 7 and callback 0; the call is task 10; the
    controller becomes object 0 and the translator object 1. *)
Definition exampleRequest : Request := mkRequest "ja" "en" (Some 7%nat) (Some 0%nat).

(** Up to the call of the trial translation. *)
Definition toTrial : list Input :=
  [Start 10 exampleRequest; ImportSettled 10 None; Resume 10].

(** The engine loads the registry and the model file ... *)
Definition downloadFirst : list Input :=
  [EngineCall 1 (Progress.CallLoadModelRegistery [("ja-en"%string, ModelArray 1)]);
   EngineCall 1 (Progress.CallFetch Progress.modelUrl Progress.cachedFile)].

(** ... then the vocabulary and the lexical shortlist. *)
Definition downloadRest : list Input :=
  [EngineCall 1 (Progress.CallFetch Progress.vocabUrl Progress.cachedFile);
   EngineCall 1 (Progress.CallFetch Progress.lexUrl Progress.cachedFile)].

(** The trial translation resolves and the three timers fire. *)
Definition finish : list Input :=
  [TrialSettled 10 None; TimerFired 10; TimerFired 10; TimerFired 10].

Definition successfulLoad : list Input :=
  toTrial ++ downloadFirst ++ downloadRest ++ finish.

(** The same load, with [cancelBergamotModelLoad('ja', 'en')] called and
    the caller's signal aborted between two file downloads. *)
Definition cancelledMidDownload : list Input :=
  toTrial ++ downloadFirst ++ [Cancel "ja" "en"; Abort 7] ++ downloadRest ++ finish.

(** *** Loads of one pair in which nothing fails and nobody cancels *)








Definition hasBackingThrow (evs : list Event) : bool :=
  existsb (λ e, match e with EvBackingThrow _ _ => true | _ => false end) evs.

End Loader.

(** ** Enumeration of all pairs: [getAllBergamotLanguagePairs] *)

Module AllPairs.

Import Registry.

(** [set.add(x)] on a JavaScript [Set], kept as the list of its elements in
    insertion order. *)
Definition setAdd (x : string) (set : list string) : list string :=
  if bool_decide (x ∈ set) then set else set ++ [x].

(** A [Map<string, string[]>] is iterated in insertion order: it is given
    by the list of its keys in that order together with the map itself. *)
Definition mapEntries (order : list string) (m : gmap string (list string))
    : list (string * list string) :=
  omap (λ k, (λ v, (k, v)) <$> m !! k) order.

(** The first loop: who translates to English, and what English
    translates to. *)
Definition scanEntry (acc : list string * list string)
    (entry : string * list string) : list string * list string :=
  let '(toEnglish, fromEnglish) := acc in
  let '(source, targets) := entry in
  let toEnglish := if bool_decide (pivotLang ∈ targets)
                   then setAdd source toEnglish else toEnglish in
  let fromEnglish := if String.eqb source pivotLang
                     then foldl (λ set target, setAdd target set) fromEnglish targets
                     else fromEnglish in
  (toEnglish, fromEnglish).

(** The inner loop: the targets reached from [source] through English and
    not directly. *)
Definition pivotTargetsOf (directPairs : gmap string (list string))
    (fromEnglish : list string) (source : string) : list string :=
  List.filter
    (λ target, negb (String.eqb target pivotLang)
               && negb (String.eqb source target)
               && negb (hasPath directPairs source target))
    fromEnglish.

(** The second loop, yielding the entries of [pivotPairs] in insertion order. *)
Definition pivotEntries (directPairs : gmap string (list string))
    (toEnglish fromEnglish : list string) : list (string * list string) :=
  omap (λ source,
          if String.eqb source pivotLang then None
          else match pivotTargetsOf directPairs fromEnglish source with
               | [] => None
               | pivotTargets => Some (source, pivotTargets)
               end)
       toEnglish.

(** [getAllBergamotLanguagePairs] after its [await] of the registry, whose
    keys in insertion order are [order]; the result is the [pivot] map as
    its entries in insertion order (the [direct] map is the registry). *)
Definition getAllBergamotLanguagePairs (order : list string)
    (directPairs : gmap string (list string)) : list (string * list string) :=
  let '(toEnglish, fromEnglish) :=
    foldl scanEntry ([], []) (mapEntries order directPairs) in
  pivotEntries directPairs toEnglish fromEnglish.

(** The order in which [parsePairs] inserts the sources into its map. *)
Definition addSource (order : list string) (entry : string * ModelsValue) : list string :=
  let parts := split "-" (fst entry) in
  match parts !! 0%nat, parts !! 1%nat, snd entry with
  | Some s, Some t, ModelArray (S _) =>
      if truthy (Some s) && truthy (Some t) then setAdd s order else order
  | _, _, _ => order
  end.

Definition parseOrder (entries : list (string * ModelsValue)) : list string :=
  foldl addSource [] entries.

(** What one entry of the registry's [models] object contributes to the
    parsed registry: its key splits into [s], [t] and possibly more, both
    are non-empty, and its value is a non-empty array. *)
Definition contributes (entry : string * ModelsValue) (s t : string) : Prop :=
  ∃ n rest, snd entry = ModelArray (S n)
    ∧ split "-" (fst entry) = s :: t :: rest ∧ s ≠ "" ∧ t ≠ "".

(** A registry body in the shape of the real one. *)
Definition sampleEntries : list (string * ModelsValue) :=
  [("ja-en"%string, ModelArray 1); ("en-fr"%string, ModelArray 2);
   ("en-ja"%string, ModelArray 1); ("de-en"%string, ModelArray 1);
   ("de-fr"%string, ModelArray 1); ("en-de"%string, ModelArray 1);
   ("xx-en"%string, ModelArray 0); ("broken"%string, ModelArray 1)].

(** A network on which the first two requests fail and the third one
    answers with the sample registry. *)
Definition sampleResponse : Response :=
  mkResponse true "200" "OK" None (Return (DataModels sampleEntries)).

Definition flakyNetwork : nat → FetchOutcome :=
  λ n, if (n <? 2)%nat then Rejects (mkError "TypeError" "Failed to fetch")
       else Responds sampleResponse.

End AllPairs.

(** ** A session of the RPC transport *)

Module RpcSession.

Import Rpc.

(** What happens to a transport: the backing calls the worker, or a
    message from the worker arrives. *)
Inductive Op : Type :=
| OpCall (name : string) (args : list JsValue) (stack : option string)
| OpMessage (m : ResponseMessage).

Definition exec (op : Op) (t : Transport) : Transport :=
  match op with
  | OpCall name args stack => (call name args stack t).2
  | OpMessage m => onMessage m t
  end.

(** The transport after a sequence of calls and messages, starting from
    the one [loadWorker] creates. *)
Definition session (ops : list Op) : Transport :=
  foldl (λ t op, exec op t) newTransport ops.

(** Two calls, the answer to the second arriving first, then a stray
    message and the answer to the first. *)
Definition sampleSession : list Op :=
  [OpCall "initialize" [JsObject] None;
   OpCall "translate" [JsObject] None;
   OpMessage (mkResponseMessage 2 (JsString "ok") None);
   OpMessage (mkResponseMessage 7 JsUndefined None);
   OpMessage (mkResponseMessage 1 JsUndefined (Some (mkErrorInfo "boom" None)))].

End RpcSession.

(** ** The range of progress values *)

Module ProgressRange.

(** Every value a step of the backing reports lies between 0 and 95. *)
Definition Bounded (f : Progress.Step) : Prop :=
  ∀ b, Forall (λ v, 0 ≤ v ≤ 95) (Progress.reports (f b).2).

(** An event of the loader that is not a progress report outside 0..100. *)
Definition inRange (e : Loader.Event) : Prop :=
  match e with
  | Loader.EvProgress _ v => 0 ≤ v ≤ 100
  | _ => True
  end.

End ProgressRange.

(** ** Invariants of the loader on arbitrary inputs *)

Module LoaderInvariants.

Import Loader.

(** The call that registered a load record is still at its import. *)
Definition recordsOwned (s : State) : Prop :=
  ∀ key rec, activeLoaders s !! key = Some rec →
    ∃ tid req, tasks s !! tid = Some (mkTask req (Importing (abortController rec)))
               ∧ requestKey req = key.



End LoaderInvariants.

(** ** The model file proxy: [GET /api/bergamot/model] *)

Module ModelProxy.

Definition GCS_BASE_URL : string :=
  "https://storage.googleapis.com/moz-fx-translations-data--303e-prod-translations-data".

(** What the upstream request does: [fetch] rejects, or it yields a
    response whose [arrayBuffer()] gives the bytes or rejects. *)
Inductive Upstream : Type :=
| UpstreamThrows (e : JsError)
| UpstreamResponds (ok : bool) (status : Z) (statusText : string)
    (arrayBuffer : Completion (list Z)).

(** The body of the proxy's answer: a JSON error object, or the file with
    the headers the route sets. *)
Inductive Body : Type :=
| JsonError (error : string) (message : option string)
| File (bytes : list Z) (contentType : string) (contentLength : nat)
       (cacheControl : string) (allowOrigin : string) (originalUrl : string).

Record ProxyResponse := mkProxyResponse {
  status : Z;
  body : Body;
}.

(** The content type worked out from the file extension. *)
Definition contentTypeOf (fileUrl : string) : string :=
  if Progress.endsWith ".gz" fileUrl then "application/gzip"
  else if Progress.endsWith ".bin" fileUrl then "application/octet-stream"
  else if Progress.endsWith ".spm" fileUrl then "text/plain"
  else "application/octet-stream".

(** [GET(request)]: [fileUrl] is [searchParams.get('url')], [net] is what
    a request for a URL does, [showStatus] renders a status code as text.
    The result is the answer and the list of URLs requested upstream. *)
Definition GET (showStatus : Z → string) (net : string → Upstream)
    (fileUrl : option string) : ProxyResponse * list string :=
  match fileUrl with
  | None | Some EmptyString =>
      (mkProxyResponse 400 (JsonError "Missing required parameter: url" None), [])
  | Some fileUrl =>
      if negb (startsWith GCS_BASE_URL fileUrl) then
        (mkProxyResponse 400
           (JsonError "Invalid URL: must be from Mozilla translations bucket" None), [])
      else
        match net fileUrl with
        | UpstreamThrows e =>
            (mkProxyResponse 500
               (JsonError "Failed to fetch model file" (Some (message e))), [fileUrl])
        | UpstreamResponds false status statusText _ =>
            (mkProxyResponse status
               (JsonError ("Failed to fetch file: " +:+ showStatus status +:+ " " +:+
                           statusText) None), [fileUrl])
        | UpstreamResponds true _ _ (Throw e) =>
            (mkProxyResponse 500
               (JsonError "Failed to fetch model file" (Some (message e))), [fileUrl])
        | UpstreamResponds true _ _ (Return arrayBuffer) =>
            (mkProxyResponse 200
               (File arrayBuffer (contentTypeOf fileUrl) (length arrayBuffer)
                  "public, max-age=86400, stale-while-revalidate=604800" "*" fileUrl),
             [fileUrl])
        end
  end.



End ModelProxy.

(** ** The registry proxy: [GET /api/bergamot/registry] *)

Module RegistryProxy.

Import Registry.

Definition REGISTRY_URL : string :=
  "https://storage.googleapis.com/moz-fx-translations-data--303e-prod-translations-data/db/models.json".

Definition CACHE_DURATION : Z := 3600.

(** The module-level cache of the route. *)
Record Cache := mkCache {
  cachedRegistry : option RegistryData;    (* None: null *)
  cacheTimestamp : Z;
}.

Definition emptyCache : Cache := mkCache None 0.

(** What the upstream request does: [fetch] rejects, or it yields a
    response whose [json()] gives the data or rejects. *)
Inductive Upstream : Type :=
| UpstreamThrows (e : JsError)
| UpstreamResponds (ok : bool) (status : Z) (statusText : string)
    (json : Completion RegistryData).

Inductive XCache : Type := HIT | MISS | STALE.

(** The body of the answer: the registry with the headers the route sets
    ([xCacheAge] and [xError] are absent where the route does not set
    them), or a JSON error object. *)
Inductive Body : Type :=
| Data (data : RegistryData) (xCache : XCache) (cacheControl : string)
       (xCacheAge : option string) (xError : option string)
| JsonError (error : string) (message : option string).

Record ProxyResponse := mkProxyResponse {
  status : Z;
  body : Body;
}.

(** [cachedRegistry && ...]: the cached value is truthy. *)
Definition truthyData (d : option RegistryData) : bool :=
  match d with
  | Some DataNotObject => false
  | Some _ => true
  | None => false
  end.

(** The [catch] block. *)
Definition onError (c : Cache) (e : JsError) : ProxyResponse :=
  match cachedRegistry c with
  | Some d =>
      if truthyData (Some d)
      then mkProxyResponse 200
             (Data d STALE "public, max-age=60, stale-while-revalidate=3600"
                None (Some (message e)))
      else mkProxyResponse 500 (JsonError "Failed to fetch registry" (Some (message e)))
  | None => mkProxyResponse 500 (JsonError "Failed to fetch registry" (Some (message e)))
  end.

(** The route from its upstream [fetch] on. *)
Definition refresh (showZ : Z → string) (now : Z) (up : Upstream) (c : Cache)
    : ProxyResponse * Cache * nat :=
  match up with
  | UpstreamThrows e => (onError c e, c, 1%nat)
  | UpstreamResponds false status statusText _ =>
      (mkProxyResponse status
         (JsonError ("Failed to fetch registry: " +:+ showZ status +:+ " " +:+ statusText)
                    None), c, 1%nat)
  | UpstreamResponds true _ _ (Throw e) => (onError c e, c, 1%nat)
  | UpstreamResponds true _ _ (Return DataNotObject) =>
      (mkProxyResponse 500 (JsonError "Invalid registry format" None), c, 1%nat)
  | UpstreamResponds true _ _ (Return data) =>
      (mkProxyResponse 200
         (Data data MISS
            ("public, max-age=" +:+ showZ CACHE_DURATION +:+
             ", stale-while-revalidate=86400") None None),
       mkCache (Some data) now, 1%nat)
  end.

(** [GET(request)] at time [now] (milliseconds), with what the upstream
    request would do; [showZ] renders an integer as text. The result is the
    answer, the cache afterwards and the number of upstream requests. *)
Definition GET (showZ : Z → string) (now : Z) (up : Upstream) (c : Cache)
    : ProxyResponse * Cache * nat :=
  let cacheAge := (inject_Z (now - cacheTimestamp c) / 1000)%Q in
  match cachedRegistry c with
  | Some d =>
      if truthyData (Some d) && Progress.Qltb cacheAge (inject_Z CACHE_DURATION)
      then (mkProxyResponse 200
              (Data d HIT
                 ("public, max-age=" +:+
                  showZ (Qfloor (inject_Z CACHE_DURATION - cacheAge)%Q) +:+
                  ", stale-while-revalidate=86400")
                 (Some (showZ (Qfloor cacheAge))) None), c, 0%nat)
      else refresh showZ now up c
  | None => refresh showZ now up c
  end.

(** Requests served one after another: each comes with its time and with
    what the upstream would do. *)
Definition serve (showZ : Z → string) (requests : list (Z * Upstream)) (c : Cache) : Cache :=
  foldl (λ c r, (GET showZ r.1 r.2 c).1.2) c requests.

(** An upstream that answers with a registry, and one that is down. *)
Definition sampleData : RegistryData := DataModels [("ja-en"%string, ModelArray 1)].
Definition upstreamOk : Upstream := UpstreamResponds true 200 "OK" (Return sampleData).
Definition upstreamDown : Upstream := UpstreamThrows (mkError "TypeError" "fetch failed").

End RegistryProxy.

(** ** The order of the backing's progress reports *)

Module ProgressOrder.

Import Progress.

(** [lo ≤ x1 ≤ x2 ≤ ... ≤ xn ≤ hi] *)
Fixpoint chain (lo : Z) (l : list Z) (hi : Z) : Prop :=
  match l with
  | [] => lo ≤ hi
  | x :: l' => lo ≤ x ∧ chain x l' hi
  end.







End ProgressOrder.

(** * Properties *)

(** ** Registry and path resolver *)

Section RegistryFacts.
Import Registry.

Lemma hasPath_reachable pairs source target :
  hasPath pairs source target = true ↔ reachable pairs source target.
Proof.
  unfold hasPath, reachable. destruct (pairs !! source) as [ts|] eqn:E.
  - rewrite bool_decide_eq_true. split; [eauto|]. by intros (? & [= <-] & ?).
  - split; [done|]. by intros (? & ? & ?).
Qed.

Lemma hasPath_unreachable pairs source target :
  hasPath pairs source target = false ↔ ¬ reachable pairs source target.
Proof. rewrite <- hasPath_reachable. by destruct (hasPath _ _ _). Qed.

Lemma eqb_neq_false (a b : string) : a ≠ b → String.eqb a b = false.
Proof. by intros ?%String.eqb_neq. Qed.

(** C2: the path resolver is a cascade: same language is unavailable; a
    direct entry gives a direct route with one model; otherwise, when
    neither end is the hub [en] and both legs through it are listed, a
    pivot route with two models and the path text; otherwise unavailable.
    The three results of the specification's example registry follow. *)
Theorem C2_getTranslationPairInfo_cascade :
  ∀ (pairs : gmap string (list string)) (source target : string),
    (source = target → pairInfo pairs source target = unavailableInfo)
    ∧ (source ≠ target → reachable pairs source target →
       pairInfo pairs source target = directInfo)
    ∧ (source ≠ target → ¬ reachable pairs source target →
       source ≠ "en" → target ≠ "en" →
       reachable pairs source "en" → reachable pairs "en" target →
       pairInfo pairs source target = pivotInfo source target)
    ∧ (source ≠ target → ¬ reachable pairs source target →
       (source = "en" ∨ target = "en" ∨
        ¬ reachable pairs source "en" ∨ ¬ reachable pairs "en" target) →
       pairInfo pairs source target = unavailableInfo)
    ∧ pairInfo exampleRegistry "ja" "fr"
      = mkInfo true false true (Some "ja → en → fr") 2
    ∧ pairInfo exampleRegistry "ja" "en" = mkInfo true true false None 1
    ∧ available (pairInfo exampleRegistry "ja" "ja") = false
    ∧ (∀ net w, hasWindow w = true →
         availableLanguagePairsCache w = Some pairs →
         getTranslationPairInfo net source target w
         = (pairInfo pairs source target, w)).
Proof.
  intros pairs source target. unfold pairInfo, pivotLang.
  repeat split.
  - intros ->. by rewrite String.eqb_refl.
  - intros Hne Hd%hasPath_reachable. by rewrite eqb_neq_false, Hd.
  - intros Hne Hd%hasPath_unreachable Hs Ht Hse%hasPath_reachable Het%hasPath_reachable.
    by rewrite eqb_neq_false, Hd, !eqb_neq_false, Hse, Het.
  - intros Hne Hd%hasPath_unreachable Hor.
    rewrite eqb_neq_false, Hd by done.
    destruct (String.eqb source "en") eqn:E1; [done|].
    destruct (String.eqb target "en") eqn:E2; [done|]. simpl.
    apply String.eqb_neq in E1, E2.
    destruct Hor as [?|[?|[H%hasPath_unreachable|H%hasPath_unreachable]]];
      try done; rewrite H; [done|]. by rewrite andb_false_r.
  - intros net w Hw Hc. unfold getTranslationPairInfo, getAvailableBergamotLanguagePairs.
    by rewrite Hw, Hc.
Qed.

(** What the retry loop does, by induction on the iterations left: it
    issues [n] requests with the back-off sleeps between them; it stops
    at an error named AbortError; it yields the empty map and leaves the
    cache alone unless an attempt parsed a non-empty registry. *)
Lemma attempts_spec net retries :
  ∀ left attempt w, (attempt + left = retries)%nat →
    ∃ n, (n ≤ left)%nat
      ∧ (left ≠ 0%nat → n ≠ 0%nat)
      ∧ log (attempts net retries attempt left w).2 = log w ++ attemptsTrace attempt n
      ∧ fetched (attempts net retries attempt left w).2 = (fetched w + n)%nat
      ∧ hasWindow (attempts net retries attempt left w).2 = hasWindow w
      ∧ (∀ k e, (k < n)%nat →
           attemptBody (net (fetched w + k)%nat) = Throw e →
           name e = "AbortError" →
           n = S k ∧ (attempts net retries attempt left w).1 = ∅)
      ∧ ((∀ k, (k < left)%nat → isThrow (attemptBody (net (fetched w + k)%nat)) = true) →
           (attempts net retries attempt left w).1 = ∅
           ∧ availableLanguagePairsCache (attempts net retries attempt left w).2
             = availableLanguagePairsCache w)
      ∧ (availableLanguagePairsCache (attempts net retries attempt left w).2
           = availableLanguagePairsCache w
         ∨ ∃ k pairs, (k < n)%nat
             ∧ attemptBody (net (fetched w + k)%nat) = Return pairs
             ∧ (attempts net retries attempt left w).1 = pairs
             ∧ availableLanguagePairsCache (attempts net retries attempt left w).2
               = Some pairs).
Proof.
  induction left as [|left IH]; intros attempt w Hsum.
  - exists 0%nat. simpl. rewrite app_nil_r, Nat.add_0_r.
    split_and!; try done; try lia. by left.
  - simpl. destruct (attemptBody (net (fetched w))) as [pairs|error] eqn:Hbody.
    + exists 1%nat. simpl. split_and!; try done; try lia.
      * intros k e Hk. assert (k = 0%nat) as -> by lia.
        rewrite Nat.add_0_r, Hbody. done.
      * intros Hall. specialize (Hall 0%nat ltac:(lia)).
        rewrite Nat.add_0_r, Hbody in Hall. done.
      * right. exists 0%nat, pairs. rewrite Nat.add_0_r. split_and!; try done; lia.
    + destruct (String.eqb (name error) "AbortError") eqn:Hab.
      * exists 1%nat. simpl. split_and!; try done; try lia.
        -- intros k e Hk. assert (k = 0%nat) as -> by lia. done.
        -- by left.
      * apply String.eqb_neq in Hab.
        assert ((attempt <? retries - 1)%nat = negb (left =? 0)%nat) as Hlast.
        { destruct left; simpl.
          - apply Nat.ltb_ge. lia.
          - apply Nat.ltb_lt. lia. }
        rewrite Hlast.
        set (w1 := countFetch (emit EvFetch w)).
        destruct left as [|left'].
        { simpl. exists 1%nat. simpl. split_and!; try done; try lia.
          - intros k e Hk. assert (k = 0%nat) as -> by lia.
            rewrite Nat.add_0_r, Hbody. by intros [= <-].
          - by left. }
        change (negb (S left' =? 0)%nat) with true. cbv iota.
        set (w2 := emit (EvSleep (backoffDelay attempt)) w1).
        destruct (IH (S attempt) w2 ltac:(lia)) as
          (n & Hn & Hpos & Hlog & Hfet & Hwin & Habort & Hall & Hcache).
        assert (∀ k, fetched w2 + k = fetched w + S k)%nat as Hshift.
        { intros k. subst w2 w1. simpl. lia. }
        exists (S n). split_and!.
        -- lia.
        -- lia.
        -- rewrite Hlog. subst w2 w1. simpl.
           destruct n as [|n']; [by specialize (Hpos ltac:(lia))|].
           simpl. by rewrite <- !app_assoc.
        -- rewrite Hfet. subst w2 w1. simpl. lia.
        -- rewrite Hwin. done.
        -- intros k e Hk Hb He. destruct k as [|k].
           ++ rewrite Nat.add_0_r, Hbody in Hb. by injection Hb as <-.
           ++ rewrite <- Hshift in Hb.
              destruct (Habort k e ltac:(lia) Hb He) as [-> ?]. done.
        -- intros Hthrow. apply Hall. intros k Hk. rewrite Hshift.
           apply Hthrow. lia.
        -- destruct Hcache as [Hc|(k & pairs & Hk & Hb & Hr & Hc)].
           ++ left. rewrite Hc. done.
           ++ right. exists (S k), pairs. rewrite <- Hshift.
              split_and!; try done; lia.
Qed.

Lemma attemptBody_Return o pairs :
  attemptBody o = Return pairs →
  size pairs ≠ 0%nat
  ∧ ∃ r entries, o = Responds r ∧ ok r = true
      ∧ json r = Return (DataModels entries) ∧ pairs = parsePairs entries.
Proof.
  unfold attemptBody. destruct o as [e|r]; [done|].
  destruct (ok r) eqn:Hok; simpl; [|done].
  destruct (json r) as [[| |entries]|e] eqn:Hjson; try done.
  case_decide; [done|]. intros [= <-]. split; [done|]. by exists r, entries.
Qed.




(** C10: in a browser page with no cached registry, a resolution whose
    attempts all fail returns the empty map and leaves the cache unset,
    so the next call goes to the network again; and whatever the network
    does, a registry is in the cache afterwards only if an attempt parsed
    it from a response and it is not empty. *)
Theorem C10_empty_registry_never_cached :
  ∀ (net : nat → FetchOutcome) (retries : nat) (w : World),
    hasWindow w = true →
    availableLanguagePairsCache w = None →
    ((∀ k, (k < retries)%nat →
         isThrow (attemptBody (net (fetched w + k)%nat)) = true) →
       (getAvailableBergamotLanguagePairs net retries w).1 = ∅
       ∧ availableLanguagePairsCache (getAvailableBergamotLanguagePairs net retries w).2
         = None
       ∧ (retries ≠ 0%nat → ∀ net', ∃ evs,
            log (getAvailableBergamotLanguagePairs net' retries
                   (getAvailableBergamotLanguagePairs net retries w).2).2
            = log (getAvailableBergamotLanguagePairs net retries w).2 ++ EvFetch :: evs))
    ∧ (∀ pairs,
         availableLanguagePairsCache (getAvailableBergamotLanguagePairs net retries w).2
         = Some pairs →
         pairs ≠ ∅
         ∧ (getAvailableBergamotLanguagePairs net retries w).1 = pairs
         ∧ ∃ k r entries, net k = Responds r ∧ ok r = true
             ∧ json r = Return (DataModels entries) ∧ pairs = parsePairs entries).
Proof.
  intros net retries w Hwin Hcache.
  assert (∀ net0 w0, hasWindow w0 = true → availableLanguagePairsCache w0 = None →
            getAvailableBergamotLanguagePairs net0 retries w0
            = attempts net0 retries 0 retries w0) as Hunf.
  { intros net0 w0 H1 H2. unfold getAvailableBergamotLanguagePairs. by rewrite H1, H2. }
  rewrite (Hunf net w Hwin Hcache).
  destruct (attempts_spec net retries retries 0 w eq_refl)
    as (n & Hn & Hpos & Hlog & Hfet & Hw' & Habort & Hall & Hc).
  split.
  - intros Hthrow. destruct (Hall Hthrow) as [Hr Hc'].
    split_and!; [done|by rewrite Hc'|].
    intros Hretries net'. rewrite Hunf; [|by rewrite Hw'|by rewrite Hc'].
    destruct (attempts_spec net' retries retries 0
                (attempts net retries 0 retries w).2 eq_refl)
      as (n' & _ & Hpos' & Hlog' & _).
    rewrite Hlog'. destruct n' as [|n']; [by specialize (Hpos' Hretries)|].
    simpl. eauto.
  - intros pairs Hsome. destruct Hc as [Hc|(k & pairs' & Hk & Hb & Hr & Hc)].
    + congruence.
    + assert (pairs' = pairs) as -> by congruence.
      destruct (attemptBody_Return _ _ Hb) as (Hsize & r & entries & Hnet & Hok & Hj & Hp).
      split_and!; [|done|by exists (fetched w + k)%nat, r, entries].
      intros ->. by rewrite map_size_empty in Hsize.
Qed.

Lemma C10_empty_registry_never_cached_witness :
  (getAvailableBergamotLanguagePairs deadNetwork 3 freshWorld).1 = ∅
  ∧ availableLanguagePairsCache
      (getAvailableBergamotLanguagePairs deadNetwork 3 freshWorld).2 = None.
Proof.
  destruct (C10_empty_registry_never_cached deadNetwork 3 freshWorld eq_refl eq_refl)
    as [H _].
  destruct H as (H1 & H2 & _); [by intros k _|]. by split.
Defined.

End RegistryFacts.

(** ** RPC transport *)

Section RpcFacts.
Import Rpc.

Lemma append_nil_l (s : string) : "" +:+ s = s.
Proof. reflexivity. Qed.

Lemma append_cons (a : ascii) (s1 s2 : string) :
  String a s1 +:+ s2 = String a (s1 +:+ s2).
Proof. reflexivity. Qed.

Lemma append_assoc (s1 s2 s3 : string) : (s1 +:+ s2) +:+ s3 = s1 +:+ s2 +:+ s3.
Proof.
  induction s1 as [|a s1 IH]; [done|]. rewrite !append_cons. by rewrite IH.
Qed.

Lemma startsWith_app needle rest : startsWith needle (needle +:+ rest) = true.
Proof.
  induction needle as [|a needle IH]; [done|].
  rewrite append_cons. simpl. by rewrite Ascii.eqb_refl.
Qed.

Lemma includes_here needle rest : includes needle (needle +:+ rest) = true.
Proof.
  destruct needle as [|a needle].
  - rewrite append_nil_l. by destruct rest.
  - rewrite append_cons. simpl. by rewrite Ascii.eqb_refl, startsWith_app.
Qed.

Lemma includes_app needle before rest :
  includes needle (before +:+ needle +:+ rest) = true.
Proof.
  induction before as [|b before IH].
  - rewrite append_nil_l. apply includes_here.
  - rewrite append_cons. cbn [includes]. rewrite IH. apply orb_true_r.
Qed.






End RpcFacts.

(** ** Progress arithmetic *)

Section ProgressFacts.
Import Progress.

Lemma reports_app o1 o2 : reports (o1 ++ o2) = reports o1 ++ reports o2.
Proof. unfold reports. apply omap_app. Qed.

Lemma andThen_fst (f g : Step) b : (andThen f g b).1 = (g (f b).1).1.
Proof. unfold andThen. destruct (f b) as [b1 o1]. simpl. by destruct (g b1). Qed.

Lemma andThen_snd (f g : Step) b : (andThen f g b).2 = (f b).2 ++ (g (f b).1).2.
Proof. unfold andThen. destruct (f b) as [b1 o1]. simpl. by destruct (g b1). Qed.











End ProgressFacts.

(** ** Loader coordinator *)

Section LoaderFacts.
Import Loader.

(** C1 (as the code has it): getBergamotTranslator puts the translator
    into the cache in the step in which it constructs it, a step that
    runs no trial translation; loadBergamotModel runs the trial
    afterwards, removes the pair's entry when the trial fails and leaves
    the cache as it is when the trial succeeds. *)
Theorem C1_cache_insert_precedes_trial :
  (∀ (s : State) (tid : nat) (req : Request) (c : nat),
      tasks s !! tid = Some (mkTask req (Importing c)) →
      bergamotTranslators (importSettled tid None s) !! requestKey req = Some (nextId s)
      ∧ tasks (importSettled tid None s) !! tid
        = Some (mkTask req (GotTranslator (Return (nextId s))))
      ∧ ∃ progress, trace (importSettled tid None s)
                    = trace s ++ EvCreate tid (nextId s) :: progress
                    ∧ (progress = [] ∨ ∃ cb, progress = [EvProgress cb 5]))
  ∧ (∀ (s : State) (tid : nat) (req : Request) (tr : nat) (e : JsError),
      tasks s !! tid = Some (mkTask req (Trial tr)) →
      bergamotTranslators (trialSettled tid (Some e) s) !! requestKey req = None
      ∧ ∃ e', tasks (trialSettled tid (Some e) s) !! tid
              = Some (mkTask req (Done (Throw e'))))
  ∧ (∀ (s : State) (tid : nat) (req : Request) (tr : nat),
      tasks s !! tid = Some (mkTask req (Trial tr)) →
      bergamotTranslators (trialSettled tid None s) = bergamotTranslators s).
Proof.
  split_and!.
  - intros s tid req c Htask. unfold importSettled. rewrite Htask.
    split_and!.
    + unfold cleanUpLoader, removeAbortHandler, report.
      destruct (abortSignal req), (onProgress req); simpl; apply lookup_insert_eq.
    + simpl. apply lookup_insert_eq.
    + unfold cleanUpLoader, removeAbortHandler, report.
      destruct (abortSignal req), (onProgress req) as [cb|]; simpl.
      * eexists. split; [by rewrite <- app_assoc|]. right. by exists cb.
      * eexists. split; [done|]. by left.
      * eexists. split; [by rewrite <- app_assoc|]. right. by exists cb.
      * eexists. split; [done|]. by left.
  - intros s tid req tr e Htask. unfold trialSettled. rewrite Htask.
    unfold failLoad. simpl. split; [apply lookup_delete_eq|].
    eexists. apply lookup_insert_eq.
  - intros s tid req tr Htask. unfold trialSettled. rewrite Htask.
    by destruct (onProgress req).
Qed.

(** C1, the claim as stated fails: when the import has resolved the
    translator is in the cache, although no trial translation of it has
    been started, let alone succeeded, and the engine has not been asked
    for anything. *)
Lemma C1_cached_before_trial_counterexample :
  bergamotTranslators (run Progress.exampleClock [Start 10 exampleRequest;
                                                  ImportSettled 10 None] initial)
    !! "ja-en" = Some 1%nat
  ∧ trialPassed 1 (trace (run Progress.exampleClock [Start 10 exampleRequest;
                                                     ImportSettled 10 None] initial))
    = false
  ∧ trace (run Progress.exampleClock [Start 10 exampleRequest;
                                      ImportSettled 10 None] initial)
    = [EvRegister "ja-en" 0; EvCreate 10 1; EvProgress 0 5].
Proof. vm_compute. by split_and!. Qed.

(** C4, at the failing input: in the middle of the download the load
    record is already gone and the abort handler detached, so
    [cancelBergamotModelLoad] changes nothing and aborting the caller's
    signal reaches no controller; the backing's abort check keeps
    passing, the load completes, and the translator stays cached. *)
Theorem C4_cancel_mid_download_is_not_observed :
  activeLoaders (run Progress.exampleClock (toTrial ++ downloadFirst) initial)
    !! "ja-en" = None
  ∧ listeners (run Progress.exampleClock (toTrial ++ downloadFirst) initial)
      !! 7%nat = Some []
  ∧ cancelBergamotModelLoad "ja" "en"
      (run Progress.exampleClock (toTrial ++ downloadFirst) initial)
    = run Progress.exampleClock (toTrial ++ downloadFirst) initial
  ∧ abortedControllers (run Progress.exampleClock cancelledMidDownload initial) = ∅
  ∧ hasBackingThrow (trace (run Progress.exampleClock cancelledMidDownload initial))
    = false
  ∧ tasks (run Progress.exampleClock cancelledMidDownload initial) !! 10%nat
    = Some (mkTask exampleRequest (Done (Return 1%nat)))
  ∧ bergamotTranslators (run Progress.exampleClock cancelledMidDownload initial)
      !! "ja-en" = Some 1%nat
  ∧ trace (run Progress.exampleClock cancelledMidDownload initial)
    = trace (run Progress.exampleClock successfulLoad initial).
Proof. vm_compute. by split_and!. Qed.


(** C7 (as the code has it): [cancelBergamotModelLoad] is idempotent and
    leaves no load record for the pair. With no load record it changes
    nothing at all, so a cached translator stays cached; with one it
    aborts the record's controller and removes the pair from the cache. *)
Theorem C7_cancel_idempotent_guarded :
  ∀ (s : State) (sourceLang targetLang : string),
    cancelBergamotModelLoad sourceLang targetLang
      (cancelBergamotModelLoad sourceLang targetLang s)
    = cancelBergamotModelLoad sourceLang targetLang s
    ∧ activeLoaders (cancelBergamotModelLoad sourceLang targetLang s)
        !! modelKey sourceLang targetLang = None
    ∧ (activeLoaders s !! modelKey sourceLang targetLang = None →
       cancelBergamotModelLoad sourceLang targetLang s = s)
    ∧ (∀ loader, activeLoaders s !! modelKey sourceLang targetLang = Some loader →
       bergamotTranslators (cancelBergamotModelLoad sourceLang targetLang s)
         !! modelKey sourceLang targetLang = None
       ∧ abortController loader
         ∈ abortedControllers (cancelBergamotModelLoad sourceLang targetLang s)).
Proof.
  intros s sourceLang targetLang.
  assert (activeLoaders (cancelBergamotModelLoad sourceLang targetLang s)
            !! modelKey sourceLang targetLang = None) as Hgone.
  { unfold cancelBergamotModelLoad.
    destruct (activeLoaders s !! modelKey sourceLang targetLang) eqn:E; [|done].
    simpl. apply lookup_delete_eq. }
  split_and!.
  - unfold cancelBergamotModelLoad at 1. by rewrite Hgone.
  - done.
  - intros Hnone. unfold cancelBergamotModelLoad. by rewrite Hnone.
  - intros loader Hsome. unfold cancelBergamotModelLoad. rewrite Hsome. simpl.
    split; [apply lookup_delete_eq|set_solver].
Qed.

(** C7, the claim as stated fails: after a completed load the translator
    is cached and no load is in flight; [cancelBergamotModelLoad] returns
    with the translator still in the cache. *)
Lemma C7_cancel_keeps_ready_handle_counterexample :
  activeLoaders (run Progress.exampleClock successfulLoad initial) !! "ja-en" = None
  ∧ tasks (run Progress.exampleClock successfulLoad initial) !! 10%nat
    = Some (mkTask exampleRequest (Done (Return 1%nat)))
  ∧ bergamotTranslators
      (cancelBergamotModelLoad "ja" "en"
         (run Progress.exampleClock successfulLoad initial)) !! "ja-en"
    = Some 1%nat.
Proof. vm_compute. by split_and!. Qed.

End LoaderFacts.

(** ** Concurrent loads of one pair *)

Section LoaderConcurrency.
Import Loader.

Lemma created_app evs1 evs2 : created (evs1 ++ evs2) = (created evs1 + created evs2)%nat.
Proof. unfold created. by rewrite List.filter_app, length_app. Qed.



(** [report], [addAbortHandler] and [removeAbortHandler] leave the maps,
    the aborted sets and the calls alone. *)
Lemma report_cache cb v s : bergamotTranslators (report cb v s) = bergamotTranslators s.
Proof. by destruct cb. Qed.
Lemma report_loaders cb v s : activeLoaders (report cb v s) = activeLoaders s.
Proof. by destruct cb. Qed.
Lemma report_signals cb v s : abortedSignals (report cb v s) = abortedSignals s.
Proof. by destruct cb. Qed.
Lemma report_controllers cb v s : abortedControllers (report cb v s) = abortedControllers s.
Proof. by destruct cb. Qed.
Lemma report_tasks cb v s : tasks (report cb v s) = tasks s.
Proof. by destruct cb. Qed.
Lemma report_created cb v s : created (trace (report cb v s)) = created (trace s).
Proof.
  destruct cb as [n|]; [|done]. simpl. rewrite created_app.
  change (created [EvProgress n v]) with 0%nat. lia.
Qed.

Lemma addAbortHandler_cache sig c s :
  bergamotTranslators (addAbortHandler sig c s) = bergamotTranslators s.
Proof. by destruct sig. Qed.
Lemma addAbortHandler_loaders sig c s :
  activeLoaders (addAbortHandler sig c s) = activeLoaders s.
Proof. by destruct sig. Qed.
Lemma addAbortHandler_signals sig c s :
  abortedSignals (addAbortHandler sig c s) = abortedSignals s.
Proof. by destruct sig. Qed.
Lemma addAbortHandler_controllers sig c s :
  abortedControllers (addAbortHandler sig c s) = abortedControllers s.
Proof. by destruct sig. Qed.
Lemma addAbortHandler_tasks sig c s : tasks (addAbortHandler sig c s) = tasks s.
Proof. by destruct sig. Qed.
Lemma addAbortHandler_trace sig c s : trace (addAbortHandler sig c s) = trace s.
Proof. by destruct sig. Qed.

Lemma removeAbortHandler_cache sig c s :
  bergamotTranslators (removeAbortHandler sig c s) = bergamotTranslators s.
Proof. by destruct sig. Qed.
Lemma removeAbortHandler_loaders sig c s :
  activeLoaders (removeAbortHandler sig c s) = activeLoaders s.
Proof. by destruct sig. Qed.
Lemma removeAbortHandler_signals sig c s :
  abortedSignals (removeAbortHandler sig c s) = abortedSignals s.
Proof. by destruct sig. Qed.
Lemma removeAbortHandler_controllers sig c s :
  abortedControllers (removeAbortHandler sig c s) = abortedControllers s.
Proof. by destruct sig. Qed.
Lemma removeAbortHandler_tasks sig c s : tasks (removeAbortHandler sig c s) = tasks s.
Proof. by destruct sig. Qed.
Lemma removeAbortHandler_trace sig c s : trace (removeAbortHandler sig c s) = trace s.
Proof. by destruct sig. Qed.

Ltac fields :=
  try unfold cleanUpLoader;
  repeat (cbn [bergamotTranslators activeLoaders abortedSignals abortedControllers
               listeners translators nextId tasks trace
               setCache setLoaders setAbortedSignals setAbortedControllers setListeners
               setTranslators allocate setPc emit cleanUpLoader request pc];
          rewrite ?report_cache, ?report_loaders, ?report_signals, ?report_controllers,
            ?report_tasks, ?report_created,
            ?addAbortHandler_cache, ?addAbortHandler_loaders, ?addAbortHandler_signals,
            ?addAbortHandler_controllers, ?addAbortHandler_tasks, ?addAbortHandler_trace,
            ?removeAbortHandler_cache, ?removeAbortHandler_loaders,
            ?removeAbortHandler_signals, ?removeAbortHandler_controllers,
            ?removeAbortHandler_tasks, ?removeAbortHandler_trace,
            ?created_app).

















End LoaderConcurrency.

(** * Further properties of the code *)

(** ** Registry parsing and the enumeration of pairs *)

Section AllPairsFacts.
Import Registry AllPairs.

Lemma truthy_Some (s : string) : truthy (Some s) = true ↔ s ≠ "".
Proof. destruct s; simpl; split; congruence. Qed.

Lemma reachable_insert (pairs : gmap string (list string)) (s' : string)
    (l : list string) (s t : string) :
  reachable (<[s' := l]> pairs) s t
  ↔ (s = s' ∧ t ∈ l) ∨ (s ≠ s' ∧ reachable pairs s t).
Proof.
  unfold reachable. destruct (decide (s = s')) as [->|Hne].
  - rewrite lookup_insert_eq. split.
    + intros (ts & [= <-] & Hin). by left.
    + intros [[_ Hin]|[? _]]; [eauto|done].
  - rewrite lookup_insert_ne by done. split.
    + intros H. by right.
    + intros [[? _]|[_ H]]; done.
Qed.

Lemma addPair_reachable (pairs : gmap string (list string))
    (entry : string * ModelsValue) (s t : string) :
  reachable (addPair pairs entry) s t
  ↔ reachable pairs s t ∨ contributes entry s t.
Proof.
  unfold addPair, contributes. destruct entry as [key value]. simpl.
  destruct (split "-" key) as [|a [|b rest]] eqn:Hsplit; simpl.
  - split; [by left|]. by intros [?|(? & ? & ? & ? & ?)].
  - split; [by left|]. by intros [?|(? & ? & ? & ? & ?)].
  - destruct value as [[|n]|tv].
    + split; [by left|]. by intros [?|(? & ? & ? & ? & ?)].
    + destruct a as [|a0 a]; simpl.
      { split; [by left|]. intros [?|(? & ? & ? & [= <- <- <-] & ? & ?)]; done. }
      destruct b as [|b0 b]; simpl.
      { split; [by left|]. intros [?|(? & ? & ? & [= <- <- <-] & ? & ?)]; done. }
      rewrite reachable_insert. split.
      * intros [[-> Hin]|[Hne Hr]]; [|by left].
        apply elem_of_app in Hin as [Hin|Hin%list_elem_of_singleton].
        -- left. unfold reachable.
           destruct (pairs !! String a0 a) as [ts|] eqn:E; [eauto|].
           simpl in Hin. by apply elem_of_nil in Hin.
        -- subst t. right. exists n, rest. done.
      * intros [(ts & Hl & Hin)|(n' & rest' & _ & [= <- <- <-] & _ & _)].
        -- destruct (decide (s = String a0 a)) as [->|Hne].
           ++ left. split; [done|]. rewrite Hl. simpl. apply elem_of_app. by left.
           ++ right. split; [done|]. by exists ts.
        -- left. split; [done|]. apply elem_of_app. right. by apply list_elem_of_singleton.
    + split; [by left|]. by intros [?|(? & ? & ? & ? & ?)].
Qed.

Lemma foldl_addPair_reachable (entries : list (string * ModelsValue))
    (pairs : gmap string (list string)) (s t : string) :
  reachable (foldl addPair pairs entries) s t
  ↔ reachable pairs s t ∨ ∃ entry, entry ∈ entries ∧ contributes entry s t.
Proof.
  revert pairs. induction entries as [|entry entries IH]; intros pairs; simpl.
  - split; [by left|]. intros [?|(? & Hin & _)]; [done|]. by apply elem_of_nil in Hin.
  - rewrite IH, addPair_reachable. split.
    + intros [[?|?]|(e & Hin & Hc)]; [by left|right..].
      * exists entry. split; [apply elem_of_cons; by left|done].
      * exists e. split; [apply elem_of_cons; by right|done].
    + intros [?|(e & [->|Hin]%elem_of_cons & Hc)].
      * by left; left.
      * by left; right.
      * right. by exists e.
Qed.

(** X1: the parsed registry lists [t] as reachable from [s] exactly when
    some entry of the [models] object has a key that splits at its dashes
    into [s], [t] (and possibly more parts), both non-empty, and a
    non-empty array as its value. *)
Theorem X1_parsePairs_sound_and_complete :
  ∀ (entries : list (string * ModelsValue)) (s t : string),
    reachable (parsePairs entries) s t
    ↔ ∃ entry, entry ∈ entries ∧ contributes entry s t.
Proof.
  intros entries s t. unfold parsePairs. rewrite foldl_addPair_reachable.
  split; [|by right]. intros [(ts & Hl & _)|?]; [|done].
  by rewrite lookup_empty in Hl.
Qed.

Lemma setAdd_elem (x y : string) (set : list string) :
  y ∈ setAdd x set ↔ y = x ∨ y ∈ set.
Proof.
  unfold setAdd. case_bool_decide as Hin.
  - split; [by right|]. by intros [->|?].
  - rewrite elem_of_app, list_elem_of_singleton. tauto.
Qed.

Lemma foldl_setAdd_elem (xs set : list string) (y : string) :
  y ∈ foldl (λ set x, setAdd x set) set xs ↔ y ∈ xs ∨ y ∈ set.
Proof.
  revert set. induction xs as [|x xs IH]; intros set; simpl.
  - split; [by right|]. intros [H|?]; [|done]. by apply elem_of_nil in H.
  - rewrite IH, setAdd_elem, elem_of_cons. tauto.
Qed.

Lemma mapEntries_elem (order : list string) (m : gmap string (list string))
    (k : string) (v : list string) :
  (k, v) ∈ mapEntries order m ↔ k ∈ order ∧ m !! k = Some v.
Proof.
  unfold mapEntries. rewrite list_elem_of_omap. split.
  - intros (k' & Hin & Hsome). destruct (m !! k') as [v'|] eqn:E; [|done].
    simpl in Hsome. by injection Hsome as -> ->.
  - intros [Hin Hl]. exists k. split; [done|]. by rewrite Hl.
Qed.

Lemma scan_elem (entries : list (string * list string)) (acc : list string * list string) :
  (∀ k, k ∈ (foldl scanEntry acc entries).1
        ↔ k ∈ acc.1 ∨ ∃ targets, (k, targets) ∈ entries ∧ pivotLang ∈ targets)
  ∧ (∀ t, t ∈ (foldl scanEntry acc entries).2
          ↔ t ∈ acc.2 ∨ ∃ targets, (pivotLang, targets) ∈ entries ∧ t ∈ targets).
Proof.
  revert acc. induction entries as [|[source targets] entries IH]; intros [toE fromE].
  - simpl. split; intros x; (split; [by left|]);
      intros [?|(? & Hin & _)]; try done; by apply elem_of_nil in Hin.
  - cbn [foldl]. destruct (IH (scanEntry (toE, fromE) (source, targets))) as [IH1 IH2].
    split; intros x.
    + rewrite IH1. cbn [scanEntry fst]. split.
      * intros [Hin|(ts & Hin & Hen)].
        -- case_bool_decide as Hen; [|by left].
           apply setAdd_elem in Hin as [->|?]; [|by left].
           right. exists targets. split; [apply elem_of_cons; by left|done].
        -- right. exists ts. split; [apply elem_of_cons; by right|done].
      * intros [Hin|(ts & [[= -> ->]|Hin]%elem_of_cons & Hen)].
        -- left. case_bool_decide; [apply setAdd_elem; by right|done].
        -- left. rewrite bool_decide_eq_true_2 by done. apply setAdd_elem. by left.
        -- right. by exists ts.
    + rewrite IH2. cbn [scanEntry snd]. split.
      * intros [Hin|(ts & Hin & Ht)].
        -- destruct (String.eqb source pivotLang) eqn:E; [|by left].
           apply String.eqb_eq in E as ->.
           apply foldl_setAdd_elem in Hin as [?|?]; [|by left].
           right. exists targets. split; [apply elem_of_cons; by left|done].
        -- right. exists ts. split; [apply elem_of_cons; by right|done].
      * intros [Hin|(ts & [[= <- ->]|Hin]%elem_of_cons & Ht)].
        -- left. destruct (String.eqb source pivotLang); [|done].
           apply foldl_setAdd_elem. by right.
        -- left. rewrite String.eqb_refl. apply foldl_setAdd_elem. by left.
        -- right. by exists ts.
Qed.

Lemma isPivot_pairInfo (pairs : gmap string (list string)) (source target : string) :
  isPivot (pairInfo pairs source target) = true
  ↔ source ≠ target ∧ hasPath pairs source target = false
    ∧ source ≠ pivotLang ∧ target ≠ pivotLang
    ∧ hasPath pairs source pivotLang = true ∧ hasPath pairs pivotLang target = true.
Proof.
  unfold pairInfo.
  destruct (String.eqb source target) eqn:E1.
  { apply String.eqb_eq in E1. simpl. split; [done|]. by intros (? & _). }
  apply String.eqb_neq in E1.
  destruct (hasPath pairs source target) eqn:E2.
  { simpl. split; [done|]. by intros (_ & ? & _). }
  destruct (String.eqb source pivotLang) eqn:E3.
  { apply String.eqb_eq in E3. simpl. split; [done|]. by intros (_ & _ & ? & _). }
  destruct (String.eqb target pivotLang) eqn:E4.
  { apply String.eqb_eq in E4. simpl. split; [done|]. by intros (_ & _ & _ & ? & _). }
  apply String.eqb_neq in E3, E4. simpl.
  destruct (hasPath pairs source pivotLang) eqn:E5; simpl.
  - destruct (hasPath pairs pivotLang target) eqn:E6; simpl.
    + done.
    + split; [done|]. by intros (_ & _ & _ & _ & _ & ?).
  - split; [done|]. by intros (_ & _ & _ & _ & ? & _).
Qed.

(** X2: [getAllBergamotLanguagePairs] and [getTranslationPairInfo] agree.
    For a registry map iterated over all its keys, [target] is listed
    among the pivot targets of [source] exactly when the path resolver
    reports the pair as a pivot pair; and no source is listed with an
    empty list of targets. *)
Theorem X2_pivot_enumeration_agrees_with_resolver :
  ∀ (order : list string) (directPairs : gmap string (list string)),
    (∀ k, k ∈ order ↔ is_Some (directPairs !! k)) →
    (∀ source target,
        (∃ targets, (source, targets) ∈ getAllBergamotLanguagePairs order directPairs
                    ∧ target ∈ targets)
        ↔ isPivot (pairInfo directPairs source target) = true)
    ∧ (∀ source, (source, []) ∉ getAllBergamotLanguagePairs order directPairs).
Proof.
  intros order directPairs Horder.
  unfold getAllBergamotLanguagePairs.
  destruct (scan_elem (mapEntries order directPairs) ([], [])) as [HtoE HfromE].
  destruct (foldl scanEntry ([], []) (mapEntries order directPairs))
    as [toEnglish fromEnglish]. simpl in HtoE, HfromE.
  assert (∀ k, k ∈ toEnglish ↔ hasPath directPairs k pivotLang = true) as HtoE'.
  { intros k. rewrite HtoE, hasPath_reachable. unfold reachable. split.
    - intros [Hin|(ts & [_ Hl]%mapEntries_elem & Hen)]; [by apply elem_of_nil in Hin|eauto].
    - intros (ts & Hl & Hen). right. exists ts. split; [|done].
      apply mapEntries_elem. split; [|done]. apply Horder. eauto. }
  assert (∀ t, t ∈ fromEnglish ↔ hasPath directPairs pivotLang t = true) as HfromE'.
  { intros t. rewrite HfromE, hasPath_reachable. unfold reachable. split.
    - intros [Hin|(ts & [_ Hl]%mapEntries_elem & Hen)]; [by apply elem_of_nil in Hin|eauto].
    - intros (ts & Hl & Hen). right. exists ts. split; [|done].
      apply mapEntries_elem. split; [|done]. apply Horder. eauto. }
  assert (∀ source target,
            target ∈ pivotTargetsOf directPairs fromEnglish source
            ↔ hasPath directPairs pivotLang target = true ∧ target ≠ pivotLang
              ∧ source ≠ target ∧ hasPath directPairs source target = false) as Htargets.
  { intros source target. unfold pivotTargetsOf.
    rewrite list_elem_of_In, List.filter_In, <- list_elem_of_In, HfromE'.
    rewrite !andb_true_iff, !negb_true_iff.
    split.
    - intros (? & (?%String.eqb_neq & ?%String.eqb_neq) & ?). done.
    - intros (? & ?%String.eqb_neq & ?%String.eqb_neq & ?). done. }
  assert (∀ source targets,
            (source, targets) ∈ pivotEntries directPairs toEnglish fromEnglish
            ↔ source ∈ toEnglish ∧ source ≠ pivotLang
              ∧ targets = pivotTargetsOf directPairs fromEnglish source
              ∧ targets ≠ []) as Hentries.
  { intros source targets. unfold pivotEntries. rewrite list_elem_of_omap. split.
    - intros (src & Hin & Hsome).
      destruct (String.eqb src pivotLang) eqn:E; [done|]. apply String.eqb_neq in E.
      destruct (pivotTargetsOf directPairs fromEnglish src) as [|x xs] eqn:Hts; [done|].
      injection Hsome as -> <-. by rewrite Hts.
    - intros (Hin & Hne%String.eqb_neq & -> & Hnonempty).
      exists source. split; [done|]. rewrite Hne.
      by destruct (pivotTargetsOf directPairs fromEnglish source). }
  split.
  - intros source target. rewrite isPivot_pairInfo. split.
    + intros (targets & (Hin & Hne & -> & _)%Hentries & Ht%Htargets).
      apply HtoE' in Hin. tauto.
    + intros (H1 & H2 & H3 & H4 & H5 & H6).
      assert (target ∈ pivotTargetsOf directPairs fromEnglish source) as Hin
        by (apply Htargets; tauto).
      exists (pivotTargetsOf directPairs fromEnglish source). split; [|done].
      apply Hentries. split_and!; [by apply HtoE'|done|done|].
      intros Hnil. rewrite Hnil in Hin. by apply elem_of_nil in Hin.
  - intros source (_ & _ & _ & Hne)%Hentries. done.
Qed.

Lemma X2_pivot_enumeration_agrees_with_resolver_witness :
  (∀ source target,
      (∃ targets, (source, targets) ∈ getAllBergamotLanguagePairs ["ja"; "en"] exampleRegistry
                  ∧ target ∈ targets)
      ↔ isPivot (pairInfo exampleRegistry source target) = true)
  ∧ (∀ source, (source, []) ∉ getAllBergamotLanguagePairs ["ja"; "en"] exampleRegistry).
Proof.
  apply (X2_pivot_enumeration_agrees_with_resolver ["ja"; "en"] exampleRegistry).
  intros k. unfold exampleRegistry.
  rewrite !elem_of_cons, elem_of_nil.
  destruct (decide (k = "ja")) as [->|Hja]; [rewrite lookup_insert_eq; split; eauto|].
  destruct (decide (k = "en")) as [->|Hen].
  { rewrite lookup_insert_ne, lookup_insert_eq by done. split; eauto. }
  rewrite !lookup_insert_ne, lookup_empty by done.
  split; [tauto|by intros [? ?]].
Defined.

(** X3: the record the path resolver returns is well formed: a pair is
    available exactly when it is direct or pivot, never both; the model
    count is 1 for direct, 2 for pivot and 0 otherwise; the path text is
    present exactly for pivot pairs; and the pair is direct exactly when
    the languages differ and [isBergamotLanguagePairAvailable] finds it. *)
Theorem X3_pair_info_well_formed :
  ∀ (pairs : gmap string (list string)) (source target : string),
    available (pairInfo pairs source target)
    = isDirect (pairInfo pairs source target) || isPivot (pairInfo pairs source target)
    ∧ isDirect (pairInfo pairs source target) && isPivot (pairInfo pairs source target)
      = false
    ∧ modelCount (pairInfo pairs source target)
      = (if isDirect (pairInfo pairs source target) then 1
         else if isPivot (pairInfo pairs source target) then 2 else 0)%nat
    ∧ (is_Some (pivotPath (pairInfo pairs source target))
       ↔ isPivot (pairInfo pairs source target) = true)
    ∧ isDirect (pairInfo pairs source target)
      = negb (String.eqb source target) && hasPath pairs source target.
Proof.
  intros pairs source target. unfold pairInfo.
  destruct (String.eqb source target); simpl; [by split_and!|].
  destruct (hasPath pairs source target); simpl; [by split_and!|].
  destruct (String.eqb source pivotLang || String.eqb target pivotLang); simpl;
    [by split_and!|].
  destruct (hasPath pairs source pivotLang && hasPath pairs pivotLang target); simpl;
    by split_and!.
Qed.

(** The retry loop when attempt number [k] (counted from the current one)
    is the first to succeed and none before it ends in an AbortError. *)
Lemma attempts_first_success net retries pairs :
  ∀ k left attempt w, (attempt + left = retries)%nat → (k < left)%nat →
    (∀ j, (j < k)%nat → ∃ e, attemptBody (net (fetched w + j)%nat) = Throw e
                              ∧ name e ≠ "AbortError") →
    attemptBody (net (fetched w + k)%nat) = Return pairs →
    (attempts net retries attempt left w).1 = pairs
    ∧ availableLanguagePairsCache (attempts net retries attempt left w).2 = Some pairs
    ∧ hasWindow (attempts net retries attempt left w).2 = hasWindow w
    ∧ fetched (attempts net retries attempt left w).2 = (fetched w + S k)%nat
    ∧ log (attempts net retries attempt left w).2 = log w ++ attemptsTrace attempt (S k).
Proof.
  induction k as [|k IH]; intros left attempt w Hsum Hlt Hfail Hok;
    destruct left as [|left]; try lia; simpl.
  - rewrite Nat.add_0_r in Hok. rewrite Hok. simpl.
    split_and!; try done. lia.
  - destruct (Hfail 0%nat ltac:(lia)) as (e & He & Hname).
    rewrite Nat.add_0_r in He. rewrite He.
    apply String.eqb_neq in Hname. rewrite Hname.
    assert ((attempt <? retries - 1)%nat = true) as -> by (apply Nat.ltb_lt; lia).
    set (w2 := emit (EvSleep (backoffDelay attempt)) (countFetch (emit EvFetch w))).
    assert (∀ j, fetched w2 + j = fetched w + S j)%nat as Hshift
      by (intros j; subst w2; simpl; lia).
    destruct (IH left (S attempt) w2 ltac:(lia) ltac:(lia)) as (H1 & H2 & H3 & H4 & H5).
    + intros j Hj. rewrite Hshift. apply Hfail. lia.
    + by rewrite Hshift.
    + split_and!; try done.
      * rewrite H4, Hshift. lia.
      * rewrite H5. subst w2. simpl. by rewrite <- !app_assoc.
Qed.

(** X4: in a browser page with no cached registry, when some attempt
    within the allowed number is the first to succeed and no earlier one
    was aborted, the resolution makes exactly that many requests with the
    back-off sleeps between them, returns the parsed registry and caches
    it; every later call, whatever the network does, returns the same
    registry without any request. *)
Theorem X4_registry_cached_after_first_success :
  ∀ (net : nat → FetchOutcome) (retries k : nat) (w : World)
    (pairs : gmap string (list string)),
    hasWindow w = true →
    availableLanguagePairsCache w = None →
    (k < retries)%nat →
    (∀ j, (j < k)%nat → ∃ e, attemptBody (net (fetched w + j)%nat) = Throw e
                              ∧ name e ≠ "AbortError") →
    attemptBody (net (fetched w + k)%nat) = Return pairs →
    (getAvailableBergamotLanguagePairs net retries w).1 = pairs
    ∧ log (getAvailableBergamotLanguagePairs net retries w).2
      = log w ++ attemptsTrace 0 (S k)
    ∧ (∀ net' retries',
         getAvailableBergamotLanguagePairs net' retries'
           (getAvailableBergamotLanguagePairs net retries w).2
         = (pairs, (getAvailableBergamotLanguagePairs net retries w).2)).
Proof.
  intros net retries k w pairs Hwin Hcache Hk Hfail Hok.
  unfold getAvailableBergamotLanguagePairs at 1 2 4 5. rewrite Hwin, Hcache. simpl.
  destruct (attempts_first_success net retries pairs k retries 0 w eq_refl Hk Hfail Hok)
    as (H1 & H2 & H3 & H4 & H5).
  split_and!; try done.
  intros net' retries'. unfold getAvailableBergamotLanguagePairs.
  by rewrite H3, Hwin, H2.
Qed.

Lemma X4_registry_cached_after_first_success_witness :
  (getAvailableBergamotLanguagePairs flakyNetwork 3 freshWorld).1
  = parsePairs sampleEntries
  ∧ log (getAvailableBergamotLanguagePairs flakyNetwork 3 freshWorld).2
    = [EvFetch; EvSleep 1000; EvFetch; EvSleep 2000; EvFetch].
Proof.
  destruct (X4_registry_cached_after_first_success flakyNetwork 3 2 freshWorld
              (parsePairs sampleEntries) eq_refl eq_refl) as (H1 & H2 & _).
  - lia.
  - intros j Hj. exists (mkError "TypeError" "Failed to fetch").
    destruct j as [|[|j]]; [done|done|lia].
  - by vm_compute.
  - split; [exact H1|exact H2].
Defined.

End AllPairsFacts.

(** ** Sessions of the RPC transport *)

Section RpcSessionFacts.
Import Rpc RpcSession.

(** What every transport reached from a new one satisfies. *)
Lemma session_invariant (ops : list Op) :
  (∀ id e, pending (session ops) !! id = Some e →
           promise e = id ∧ (1 ≤ id ≤ serial (session ops))%nat)
  ∧ req_id <$> posted (session ops) = seq 1 (serial (session ops))
  ∧ (∀ id, id ∈ (fst <$> settled (session ops)) →
           pending (session ops) !! id = None ∧ (1 ≤ id ≤ serial (session ops))%nat)
  ∧ NoDup (fst <$> settled (session ops))
  ∧ (size (pending (session ops)) + length (settled (session ops))
     = serial (session ops))%nat.
Proof.
  unfold session. induction ops as [|op ops IH] using rev_ind.
  - simpl. split_and!; try done.
    + intros id Hin. by apply elem_of_nil in Hin.
    + constructor.
  - rewrite foldl_app. simpl.
    set (t := foldl (λ t op, exec op t) newTransport ops) in *.
    destruct IH as (I1 & I2 & I3 & I4 & I5).
    assert (pending t !! S (serial t) = None) as Hfresh.
    { destruct (pending t !! S (serial t)) as [e|] eqn:E; [|done].
      destruct (I1 _ _ E) as [_ ?]. lia. }
    destruct op as [name args stack|m]; simpl.
    + split_and!.
      * intros id e [[<- <-]|[Hne Hl]]%lookup_insert_Some; [simpl; lia|].
        destruct (I1 _ _ Hl). lia.
      * rewrite fmap_app, I2.
        change (1%nat :: seq 2 (serial t)) with (seq 1 (S (serial t))).
        rewrite seq_S. reflexivity.
      * intros id Hin. destruct (I3 _ Hin) as [Hn ?].
        split; [|lia]. rewrite lookup_insert_ne by lia. done.
      * done.
      * rewrite map_size_insert_None by done. lia.
    + unfold onMessage. destruct (pending t !! msg_id m) as [entry|] eqn:Hentry.
      * destruct (I1 _ _ Hentry) as [Hpromise Hrange].
        assert (msg_id m ∉ (fst <$> settled t)) as Hnew.
        { intros Hin. destruct (I3 _ Hin) as [Hn _]. congruence. }
        assert (∀ outcome,
                  let t' := mkTransport (serial t) (delete (msg_id m) (pending t))
                              (posted t) (settled t ++ [(promise entry, outcome)])
                              (console t) in
                  (∀ id e, pending t' !! id = Some e →
                           promise e = id ∧ (1 ≤ id ≤ serial t')%nat)
                  ∧ req_id <$> posted t' = seq 1 (serial t')
                  ∧ (∀ id, id ∈ (fst <$> settled t') →
                           pending t' !! id = None ∧ (1 ≤ id ≤ serial t')%nat)
                  ∧ NoDup (fst <$> settled t')
                  ∧ (size (pending t') + length (settled t') = serial t')%nat) as Hstep.
        { intros outcome. simpl. split_and!.
          - intros id e [Hne Hl]%lookup_delete_Some. by apply I1.
          - done.
          - intros id. rewrite fmap_app, elem_of_app. simpl.
            rewrite list_elem_of_singleton, Hpromise.
            intros [Hin| ->].
            + destruct (I3 _ Hin) as [Hn ?]. split; [|done].
              by apply lookup_delete_None; right.
            + split; [apply lookup_delete_eq|done].
          - rewrite fmap_app. simpl. rewrite Hpromise.
            apply NoDup_app. split_and!; [done| |apply NoDup_singleton].
            intros id Hin ->%list_elem_of_singleton. done.
          - rewrite map_size_delete, Hentry, length_app. simpl.
            assert (size (pending t) ≠ 0)%nat.
            { intros Hz%map_size_empty_inv. by rewrite Hz, lookup_empty in Hentry. }
            lia. }
        destruct (msg_error m); apply Hstep.
      * simpl. done.
Qed.

(** X5: in every session of the transport, the ids of the requests posted
    to the worker are 1, 2, 3, ... in order, every pending entry has an id
    that was issued, and so the id of the next call is not in the pending
    table: a call never takes over the entry of a call in flight. *)
Theorem X5_rpc_ids_are_fresh_and_increasing :
  ∀ (ops : list Op),
    req_id <$> posted (session ops) = seq 1 (serial (session ops))
    ∧ (∀ id, is_Some (pending (session ops) !! id) →
             (1 ≤ id ≤ serial (session ops))%nat)
    ∧ (∀ name args stack,
         pending (session ops) !! (call name args stack (session ops)).1 = None).
Proof.
  intros ops. destruct (session_invariant ops) as (I1 & I2 & _).
  split_and!; [done| |].
  - intros id [e He]. by destruct (I1 _ _ He).
  - intros name args stack. simpl.
    destruct (pending (session ops) !! S (serial (session ops))) as [e|] eqn:E; [|done].
    destruct (I1 _ _ E) as [_ ?]. lia.
Qed.

(** X6: in every session of the transport each call is either pending or
    has been settled, exactly once: the pending entries and the
    settlements together are as many as the calls made, no promise is
    settled twice, and a settled call is no longer pending. *)
Theorem X6_rpc_each_call_settled_at_most_once :
  ∀ (ops : list Op),
    (size (pending (session ops)) + length (settled (session ops))
     = serial (session ops))%nat
    ∧ NoDup (fst <$> settled (session ops))
    ∧ (∀ id, id ∈ (fst <$> settled (session ops)) →
             pending (session ops) !! id = None
             ∧ (1 ≤ id ≤ serial (session ops))%nat).
Proof.
  intros ops. destruct (session_invariant ops) as (_ & _ & I3 & I4 & I5). done.
Qed.

End RpcSessionFacts.

(** ** The range of progress values *)

Section ProgressRangeFacts.
Import Progress ProgressRange.

Lemma Bounded_skip : Bounded skip.
Proof. intros b. constructor. Qed.

Lemma Bounded_andThen (f g : Step) : Bounded f → Bounded g → Bounded (andThen f g).
Proof.
  intros Hf Hg b. rewrite andThen_snd, reports_app. apply Forall_app. split; [apply Hf|apply Hg].
Qed.

Lemma Bounded_silent (f : Backing → Backing) : Bounded (λ b, (f b, [])).
Proof. intros b. constructor. Qed.

Lemma Bounded_console (w : Q) : Bounded (λ b, (b, [ConsoleWeight w])).
Proof. intros b. constructor. Qed.

Lemma Bounded_updateProgress clock baseProgress fileProgress weight :
  Bounded (updateProgress clock baseProgress fileProgress weight).
Proof.
  intros b. unfold updateProgress. destruct (hasOnProgress b); [|constructor].
  match goal with |- context [if ?c then _ else _] => destruct c end;
    simpl; repeat constructor; lia.
Qed.

Lemma Bounded_if (c : bool) (f g : Step) : Bounded f → Bounded g → Bounded (if c then f else g).
Proof. by destruct c. Qed.

Lemma Bounded_readChunks clock baseProgress fileAllocation totalBytes :
  ∀ rest downloadedBytes,
    Bounded (readChunks clock baseProgress fileAllocation totalBytes downloadedBytes rest).
Proof.
  induction rest as [|value rest IH]; intros downloadedBytes; simpl.
  - apply Bounded_skip.
  - apply Bounded_andThen; [|apply IH].
    intros b. destruct (hasOnProgress b); [|constructor].
    match goal with |- context [if ?c then _ else _] => destruct c end;
      [apply Bounded_updateProgress|constructor].
Qed.

Lemma Bounded_fetch clock url r : Bounded (fetch clock url r).
Proof.
  intros b. unfold fetch. cbv zeta.
  repeat first
    [ apply Bounded_andThen
    | apply Bounded_if
    | apply Bounded_updateProgress
    | apply Bounded_readChunks
    | apply Bounded_console
    | apply (Bounded_silent _) ].
Qed.

Lemma Bounded_loadModelRegistery clock entries : Bounded (loadModelRegistery clock entries).
Proof.
  unfold loadModelRegistery.
  repeat first [ apply Bounded_andThen | apply Bounded_updateProgress ].
  intros b. constructor.
Qed.

Lemma backingCall_bounded clock c : Bounded (Progress.backingCall clock c).
Proof. destruct c; [apply Bounded_loadModelRegistery|apply Bounded_fetch]. Qed.

(** X7: whatever the engine asks of the backing, in whatever state and at
    whatever time, every value [loadModelRegistery] and [fetch] report to
    the progress callback lies between 0 and 95: the backing never reports
    completion. *)
Theorem X7_backing_reports_between_0_and_95 :
  ∀ (clock : nat → Z) (c : BackingCall) (b : Backing),
    Forall (λ v, 0 ≤ v ≤ 95) (reports (backingCall clock c b).2).
Proof.
  intros clock c b. apply backingCall_bounded.
Qed.

End ProgressRangeFacts.

(** ** The loader on arbitrary inputs *)

Section LoaderGeneralFacts.
Import Loader ProgressRange LoaderInvariants.

Lemma report_trace cb v s :
  trace (report cb v s) = trace s ++ match cb with Some c => [EvProgress c v] | None => [] end.
Proof. destruct cb; [done|]. simpl. by rewrite app_nil_r. Qed.

Ltac traces :=
  try unfold cleanUpLoader, failLoad, registerLoader;
  repeat (cbn [trace setCache setLoaders setAbortedSignals setAbortedControllers
               setListeners setTranslators allocate setPc emit];
          rewrite ?report_trace, ?addAbortHandler_trace, ?removeAbortHandler_trace).

Ltac ranged :=
  traces; rewrite ?Forall_app; repeat split; try done;
  repeat match goal with
         | |- Forall _ (match ?x with Some _ => _ | None => _ end) => destruct x
         | |- Forall _ (_ :: _) => constructor
         | |- Forall _ [] => constructor
         end; simpl; try done; try lia.

Lemma step_inRange clock i s :
  Forall inRange (trace s) → Forall inRange (trace (step clock i s)).
Proof.
  intros Hs.
  destruct i as [tid req|tid|tid outcome|tid|tid outcome|tr c|src tgt|sig]; simpl.
  - unfold start. destruct (tasks s !! tid); [done|].
    destruct (signalAborted s (abortSignal req)); [ranged|].
    destruct (bergamotTranslators s !! requestKey req); [ranged|].
    unfold enterGetBergamotTranslator, waitLoop.
    repeat match goal with |- context [if ?c then _ else _] => destruct c end;
      try destruct (bergamotTranslators s !! requestKey req); ranged.
  - unfold timerFired, waitLoop. destruct (tasks s !! tid) as [[req p]|]; [|done].
    destruct p as [|c|r|t|[|[|stage]] t|r]; try done; try ranged.
    destruct (bergamotTranslators s !! requestKey req); [ranged|].
    repeat match goal with |- context [if ?c then _ else _] => destruct c end; ranged.
  - unfold importSettled. destruct (tasks s !! tid) as [[req p]|]; [|done].
    destruct p; try done. destruct outcome; ranged.
  - unfold resume. destruct (tasks s !! tid) as [[req p]|]; [|done].
    destruct p as [|c|[t|e]|t|stage t|r]; try done; [|ranged].
    destruct (signalAborted s (abortSignal req)); ranged.
  - unfold trialSettled. destruct (tasks s !! tid) as [[req p]|]; [|done].
    destruct p; try done. destruct outcome; [ranged|].
    destruct (onProgress req); ranged.
  - unfold engineCall. destruct (translators s !! tr) as [object|]; [|done].
    destruct (checkAborted s object); [|ranged].
    destruct (Progress.backingCall clock c (backing object)) as [b' out] eqn:Hcall.
    destruct (callback object) as [cb|]; [|done].
    cbn [trace emit setTranslators]. apply Forall_app. split; [done|].
    apply Forall_fmap, Forall_forall. intros v Hv. simpl.
    assert (0 ≤ v ≤ 95); [|lia].
    pose proof (backingCall_bounded clock c (backing object)) as HB.
    rewrite Hcall, Forall_forall in HB. by apply HB.
  - unfold cancelBergamotModelLoad. by destruct (activeLoaders s !! modelKey src tgt).
  - unfold abort. by destruct (bool_decide (sig ∈ abortedSignals s)).
Qed.

(** X8: on every sequence of inputs (calls, timers, settlements, engine
    calls, cancellations and aborts, in any order), every value that any
    progress callback receives lies between 0 and 100. *)
Theorem X8_progress_values_between_0_and_100 :
  ∀ (clock : nat → Z) (inputs : list Input),
    Forall (λ e, match e with EvProgress _ v => 0 ≤ v ≤ 100 | _ => True end)
           (trace (run clock inputs initial)).
Proof.
  intros clock inputs.
  assert (∀ s, Forall inRange (trace s) → Forall inRange (trace (run clock inputs s))) as Hrun.
  { induction inputs as [|i inputs IH]; intros s Hs; [done|].
    simpl. apply IH. by apply step_inRange. }
  apply (Hrun initial). constructor.
Qed.

Ltac fields :=
  try unfold cleanUpLoader, failLoad, registerLoader;
  repeat (cbn [bergamotTranslators activeLoaders abortedSignals abortedControllers
               listeners translators nextId tasks trace
               setCache setLoaders setAbortedSignals setAbortedControllers setListeners
               setTranslators allocate setPc emit request pc];
          rewrite ?report_cache, ?report_loaders, ?report_signals, ?report_controllers,
            ?report_tasks,
            ?addAbortHandler_cache, ?addAbortHandler_loaders, ?addAbortHandler_signals,
            ?addAbortHandler_controllers, ?addAbortHandler_tasks,
            ?removeAbortHandler_cache, ?removeAbortHandler_loaders,
            ?removeAbortHandler_signals, ?removeAbortHandler_controllers,
            ?removeAbortHandler_tasks).

(** Giving a call that is not at its import a new state, or adding a
    call, keeps the records owned as long as no record is added. *)
Lemma recordsOwned_update (s s' : State) (tid : nat) (t : Task) :
  recordsOwned s →
  (∀ req c, tasks s !! tid ≠ Some (mkTask req (Importing c))) →
  (∀ key rec, activeLoaders s' !! key = Some rec → activeLoaders s !! key = Some rec) →
  tasks s' = <[tid := t]> (tasks s) →
  recordsOwned s'.
Proof.
  intros Hown Htid Hsub Htasks key rec Hrec.
  destruct (Hown key rec (Hsub _ _ Hrec)) as (tid' & req & Hl & Hkey).
  exists tid', req. split; [|done]. rewrite Htasks.
  rewrite lookup_insert_ne; [done|]. intros ->. by apply (Htid req (abortController rec)).
Qed.

Lemma recordsOwned_same (s s' : State) :
  recordsOwned s →
  (∀ key rec, activeLoaders s' !! key = Some rec → activeLoaders s !! key = Some rec) →
  tasks s' = tasks s →
  recordsOwned s'.
Proof.
  intros Hown Hsub Htasks key rec Hrec.
  destruct (Hown key rec (Hsub _ _ Hrec)) as (tid' & req & Hl & Hkey).
  exists tid', req. by rewrite Htasks.
Qed.

Lemma recordsOwned_register (s : State) (tid : nat) (req : Request) :
  recordsOwned s →
  (∀ req' c, tasks s !! tid ≠ Some (mkTask req' (Importing c))) →
  recordsOwned (registerLoader tid req s).
Proof.
  intros Hown Htid key rec. unfold registerLoader. fields.
  intros [[<- <-]|[Hne Hrec]]%lookup_insert_Some.
  - exists tid, req. simpl. by rewrite lookup_insert_eq.
  - destruct (Hown key rec Hrec) as (tid' & req' & Hl & Hkey).
    exists tid', req'. split; [|done].
    rewrite lookup_insert_ne; [done|]. intros ->. by apply (Htid req' (abortController rec)).
Qed.

Lemma recordsOwned_waitLoop (s : State) (tid : nat) (req : Request) :
  recordsOwned s →
  (∀ req' c, tasks s !! tid ≠ Some (mkTask req' (Importing c))) →
  recordsOwned (waitLoop tid req s).
Proof.
  intros Hown Htid. unfold waitLoop.
  repeat match goal with |- context [if ?c then _ else _] => destruct c end.
  - by apply (recordsOwned_update s _ tid (mkTask req Polling)).
  - by apply (recordsOwned_update s _ tid
                (mkTask req (GotTranslator (Throw (newError "Operation aborted"))))).
  - by apply recordsOwned_register.
Qed.

Lemma step_recordsOwned clock i s : recordsOwned s → recordsOwned (step clock i s).
Proof.
  intros Hown.
  destruct i as [tid req|tid|tid outcome|tid|tid outcome|tr c|src tgt|sig]; simpl.
  - unfold start. destruct (tasks s !! tid) eqn:Htid; [done|].
    assert (∀ req' c, tasks s !! tid ≠ Some (mkTask req' (Importing c))) as Hnot
      by (intros ? ?; by rewrite Htid).
    destruct (signalAborted s (abortSignal req)).
    { by eapply (recordsOwned_update s _ tid); [done|done| |fields]. }
    destruct (bergamotTranslators s !! requestKey req).
    { by eapply (recordsOwned_update s _ tid); [done|done| |fields]; fields. }
    unfold enterGetBergamotTranslator.
    destruct (signalAborted s (abortSignal req)).
    { by eapply (recordsOwned_update s _ tid); [done|done| |fields]. }
    destruct (bergamotTranslators s !! requestKey req).
    { by eapply (recordsOwned_update s _ tid); [done|done| |fields]. }
    destruct (bool_decide _); [by apply recordsOwned_waitLoop|by apply recordsOwned_register].
  - unfold timerFired. destruct (tasks s !! tid) as [[req p]|] eqn:Htid; [|done].
    assert ((∀ c, p ≠ Importing c) →
              ∀ req' c', tasks s !! tid ≠ Some (mkTask req' (Importing c'))) as Hnot.
    { intros Hp req' c'. rewrite Htid. intros [= _ Hp']. by apply (Hp c'). }
    destruct p as [|c|r|t|[|[|stage]] t|r]; try done.
    + destruct (bergamotTranslators s !! requestKey req).
      * eapply (recordsOwned_update s _ tid); [done|by apply Hnot|done|fields; done].
      * apply recordsOwned_waitLoop; [done|by apply Hnot].
    + eapply (recordsOwned_update s _ tid); [done|by apply Hnot| |fields; done].
      by fields.
    + eapply (recordsOwned_update s _ tid); [done|by apply Hnot| |fields; done].
      by fields.
    + eapply (recordsOwned_update s _ tid); [done|by apply Hnot| |fields; done].
      by fields.
  - unfold importSettled. destruct (tasks s !! tid) as [[req p]|] eqn:Htid; [|done].
    destruct p as [|c|r|t|stage t|r]; try done.
    assert (∀ s' p', activeLoaders s' = delete (requestKey req) (activeLoaders s) →
                     tasks s' = <[tid := mkTask req p']> (tasks s) →
                     recordsOwned s') as Hdone.
    { intros s' p' Hl Ht key rec. rewrite Hl. intros [Hne Hrec]%lookup_delete_Some.
      destruct (Hown key rec Hrec) as (tid' & req' & Hl' & Hkey).
      exists tid', req'. split; [|done]. rewrite Ht.
      rewrite lookup_insert_ne; [done|]. intros ->.
      rewrite Htid in Hl'. injection Hl' as <- _. done. }
    destruct outcome as [e|].
    + by apply (Hdone _ (GotTranslator (Throw e))); unfold cleanUpLoader; fields.
    + by apply (Hdone _ (GotTranslator (Return (nextId s)))); unfold cleanUpLoader; fields.
  - unfold resume. destruct (tasks s !! tid) as [[req p]|] eqn:Htid; [|done].
    assert ((∀ c, p ≠ Importing c) →
              ∀ req' c', tasks s !! tid ≠ Some (mkTask req' (Importing c'))) as Hnot.
    { intros Hp req' c'. rewrite Htid. intros [= _ Hp']. by apply (Hp c'). }
    destruct p as [|c|[t|e]|t|stage t|r]; try done.
    + destruct (signalAborted s (abortSignal req));
        (eapply (recordsOwned_update s _ tid);
         [done|by apply Hnot| |fields; done]); by fields.
    + eapply (recordsOwned_update s _ tid);
        [done|by apply Hnot| |fields; done]; by fields.
  - unfold trialSettled. destruct (tasks s !! tid) as [[req p]|] eqn:Htid; [|done].
    assert ((∀ c, p ≠ Importing c) →
              ∀ req' c', tasks s !! tid ≠ Some (mkTask req' (Importing c'))) as Hnot.
    { intros Hp req' c'. rewrite Htid. intros [= _ Hp']. by apply (Hp c'). }
    destruct p as [|c|r|t|stage t|r]; try done.
    destruct outcome as [e|]; [|destruct (onProgress req)];
      (eapply (recordsOwned_update s _ tid);
       [done|by apply Hnot| |fields; done]); by fields.
  - unfold engineCall. destruct (translators s !! tr) as [object|]; [|done].
    destruct (checkAborted s object); [|by apply (recordsOwned_same s)].
    destruct (Progress.backingCall clock c (backing object)) as [b' out].
    destruct (callback object); by apply (recordsOwned_same s).
  - unfold cancelBergamotModelLoad.
    destruct (activeLoaders s !! modelKey src tgt); [|done].
    apply (recordsOwned_same s); [done| |done].
    intros key rec. simpl. by intros [_ ?]%lookup_delete_Some.
  - unfold abort. destruct (bool_decide _); [done|]. by apply (recordsOwned_same s).
Qed.

Lemma run_recordsOwned clock inputs s : recordsOwned s → recordsOwned (run clock inputs s).
Proof.
  revert s. induction inputs as [|i inputs IH]; intros s Hs; [done|].
  simpl. apply IH. by apply step_recordsOwned.
Qed.

(** X9: on every sequence of inputs, a load record exists only while the
    call that registered it is suspended at its import: for every record
    there is such a call, for the record's pair and with the record's
    controller. So once every call has settled the table is empty; no
    record is left behind, whatever failed or was cancelled. *)
Theorem X9_load_records_only_while_importing :
  ∀ (clock : nat → Z) (inputs : list Input),
    (∀ key rec,
        activeLoaders (run clock inputs initial) !! key = Some rec →
        ∃ tid req,
          tasks (run clock inputs initial) !! tid
          = Some (mkTask req (Importing (abortController rec)))
          ∧ requestKey req = key)
    ∧ ((∀ tid t, tasks (run clock inputs initial) !! tid = Some t → ∃ r, pc t = Done r) →
       activeLoaders (run clock inputs initial) = ∅).
Proof.
  intros clock inputs.
  assert (recordsOwned (run clock inputs initial)) as Hown.
  { apply run_recordsOwned. intros key rec Hl. simpl in Hl. by rewrite lookup_empty in Hl. }
  split; [exact Hown|].
  intros Hdone. apply map_eq. intros key. rewrite lookup_empty.
  destruct (activeLoaders (run clock inputs initial) !! key) as [rec|] eqn:E; [|done].
  destruct (Hown key rec E) as (tid & req & Hl & _).
  destruct (Hdone _ _ Hl) as [r Hr]. done.
Qed.









Lemma report_translators cb v s : translators (report cb v s) = translators s.
Proof. by destruct cb. Qed.
Lemma removeAbortHandler_translators sig c s :
  translators (removeAbortHandler sig c s) = translators s.
Proof. by destruct sig. Qed.





Lemma append_nil_r (s : string) : s +:+ "" = s.
Proof. induction s as [|a s IH]; [done|]. rewrite append_cons. by rewrite IH. Qed.

Lemma includes_suffix (needle before : string) : includes needle (before +:+ needle) = true.
Proof.
  rewrite <- (append_nil_r needle) at 2. apply includes_app.
Qed.

Lemma includes_refl (s : string) : includes s s = true.
Proof. rewrite <- (append_nil_r s) at 2. apply includes_here. Qed.

(** X11: when the trial translation rejects, [loadBergamotModel] rejects
    with an error whose message contains the message of the trial's
    error; if that message mentions "aborted" the error is passed on
    unchanged, otherwise it is wrapped with the pair's name. In both
    cases the pair's cache entry is removed. *)
Theorem X11_trial_failure_keeps_the_cause :
  ∀ (s : State) (tid : nat) (req : Request) (tr : nat) (e : JsError),
    tasks s !! tid = Some (mkTask req (Trial tr)) →
    ∃ e',
      tasks (trialSettled tid (Some e) s) !! tid = Some (mkTask req (Done (Throw e')))
      ∧ includes (message e) (message e') = true
      ∧ (includes "aborted" (message e) = true → e' = e)
      ∧ (includes "aborted" (message e) = false →
         e' = newError ("Bergamot model for " +:+ sourceLang req +:+ "-" +:+ targetLang req
                        +:+ " is not available or failed to load: " +:+ message e))
      ∧ bergamotTranslators (trialSettled tid (Some e) s) !! requestKey req = None.
Proof.
  intros s tid req tr e Htask. unfold trialSettled. rewrite Htask.
  eexists. split_and!.
  - unfold failLoad. simpl. apply lookup_insert_eq.
  - destruct (includes "aborted" (message e)); [apply includes_refl|].
    unfold newError. cbn [message]. rewrite <- !append_assoc. apply includes_suffix.
  - by intros ->.
  - by intros ->.
  - unfold failLoad. simpl. apply lookup_delete_eq.
Qed.

Lemma X11_trial_failure_keeps_the_cause_witness :
  ∃ e',
    tasks (trialSettled 10 (Some (newError "HTTP 404: Not Found"))
             (run Progress.exampleClock toTrial initial)) !! 10%nat
    = Some (mkTask exampleRequest (Done (Throw e')))
    ∧ includes "HTTP 404: Not Found" (message e') = true.
Proof.
  destruct (X11_trial_failure_keeps_the_cause
              (run Progress.exampleClock toTrial initial) 10 exampleRequest 1
              (newError "HTTP 404: Not Found")) as (e' & H1 & H2 & _).
  - by vm_compute.
  - exists e'. by split.
Defined.

Lemma modelKey_cons (a : ascii) (s t : string) :
  modelKey (String a s) t = String a (modelKey s t).
Proof. reflexivity. Qed.

Lemma modelKey_nil (t : string) : modelKey "" t = String "-" t.
Proof. reflexivity. Qed.

Lemma includes_dash_cons (a : ascii) (s : string) :
  includes "-" (String a s) = false → a ≠ "-"%char ∧ includes "-" s = false.
Proof.
  cbn [includes startsWith]. intros [H1 H2]%orb_false_iff. split; [|done].
  intros ->. done.
Qed.

(** X12: the cache key [source-target] determines the pair as long as the
    source codes contain no dash: two such pairs with the same key are the
    same pair. Without that condition keys collide, as for zh-Hant→en and
    zh→Hant-en. *)
Theorem X12_model_key_identifies_the_pair :
  (∀ (source target source' target' : string),
      includes "-" source = false → includes "-" source' = false →
      modelKey source target = modelKey source' target' →
      source = source' ∧ target = target')
  ∧ modelKey "zh-Hant" "en" = modelKey "zh" "Hant-en".
Proof.
  split; [|reflexivity].
  induction source as [|a source IH]; intros target [|a' source'] target' Hs Hs' Hkey.
  - rewrite !modelKey_nil in Hkey. by injection Hkey as ->.
  - rewrite modelKey_nil, modelKey_cons in Hkey. injection Hkey as <- _.
    by destruct (includes_dash_cons _ _ Hs').
  - rewrite modelKey_nil, modelKey_cons in Hkey. injection Hkey as -> _.
    by destruct (includes_dash_cons _ _ Hs).
  - rewrite !modelKey_cons in Hkey. injection Hkey as -> Hkey.
    destruct (includes_dash_cons _ _ Hs) as [_ Hs1].
    destruct (includes_dash_cons _ _ Hs') as [_ Hs1'].
    destruct (IH target source' target' Hs1 Hs1' Hkey) as [-> ->]. done.
Qed.

(** X13: a cancellation that arrives while the call is still at its
    import is observed. [cancelBergamotModelLoad] aborts the record's
    controller; when the import then resolves the translator is still
    constructed and cached, but its backing is bound to the aborted
    controller, so whatever the engine asks of it throws "Operation
    aborted by user" and reports no progress. *)
Theorem X13_cancel_during_import_is_observed :
  ∀ (clock : nat → Z) (s : State) (tid : nat) (req : Request) (rec : LoadRecord)
    (c : Progress.BackingCall),
    tasks s !! tid = Some (mkTask req (Importing (abortController rec))) →
    activeLoaders s !! requestKey req = Some rec →
    bergamotTranslators
      (importSettled tid None
         (cancelBergamotModelLoad (sourceLang req) (targetLang req) s))
      !! requestKey req = Some (nextId s)
    ∧ trace (engineCall clock (nextId s) c
               (importSettled tid None
                  (cancelBergamotModelLoad (sourceLang req) (targetLang req) s)))
      = trace (importSettled tid None
                 (cancelBergamotModelLoad (sourceLang req) (targetLang req) s))
        ++ [EvBackingThrow (nextId s) (newError "Operation aborted by user")]
    ∧ translators (engineCall clock (nextId s) c
                     (importSettled tid None
                        (cancelBergamotModelLoad (sourceLang req) (targetLang req) s)))
      = translators (importSettled tid None
                       (cancelBergamotModelLoad (sourceLang req) (targetLang req) s)).
Proof.
  intros clock s tid req rec c Htask Hrec.
  unfold cancelBergamotModelLoad. fold (requestKey req). rewrite Hrec.
  set (s0 := setCache _ _).
  assert (tasks s0 !! tid = Some (mkTask req (Importing (abortController rec)))) as Htask0
    by done.
  unfold importSettled. rewrite Htask0.
  set (s1 := setPc _ _ _ _).
  assert (translators s1 !! nextId s
          = Some (mkTranslatorObject (abortController rec) (onProgress req)
                    (Progress.newBacking (bool_decide (is_Some (onProgress req)))
                       (sourceLang req) (targetLang req)))) as Hobj.
  { subst s1 s0. unfold cleanUpLoader. fields.
    rewrite ?removeAbortHandler_translators. fields. rewrite ?report_translators.
    fields. apply lookup_insert_eq. }
  assert (abortController rec ∈ abortedControllers s1) as Hab.
  { subst s1 s0. unfold cleanUpLoader. fields. set_solver. }
  split_and!.
  - subst s1 s0. unfold cleanUpLoader. fields. apply lookup_insert_eq.
  - unfold engineCall. rewrite Hobj. unfold checkAborted. simpl.
    by rewrite bool_decide_eq_true_2.
  - unfold engineCall. rewrite Hobj. unfold checkAborted. simpl.
    by rewrite bool_decide_eq_true_2.
Qed.

Lemma X13_cancel_during_import_is_observed_witness :
  trace (engineCall Progress.exampleClock 1
           (Progress.CallLoadModelRegistery [("ja-en"%string, ModelArray 1)])
           (importSettled 10 None
              (cancelBergamotModelLoad "ja" "en"
                 (run Progress.exampleClock [Start 10 exampleRequest] initial))))
  = trace (importSettled 10 None
             (cancelBergamotModelLoad "ja" "en"
                (run Progress.exampleClock [Start 10 exampleRequest] initial)))
    ++ [EvBackingThrow 1 (newError "Operation aborted by user")].
Proof.
  apply (X13_cancel_during_import_is_observed Progress.exampleClock
           (run Progress.exampleClock [Start 10 exampleRequest] initial)
           10 exampleRequest (mkLoadRecord 0 (Some 0%nat))).
  - by vm_compute.
  - by vm_compute.
Defined.

(** X14: when the caller's signal is aborted while the call is at its
    import, the import still completes, and the call then fails with
    "Operation aborted" as soon as it resumes, leaving neither a cache
    entry nor a load record for the pair. *)
Theorem X14_abort_during_import_fails_the_load :
  ∀ (s : State) (tid : nat) (req : Request) (c sig : nat),
    tasks s !! tid = Some (mkTask req (Importing c)) →
    abortSignal req = Some sig →
    tasks (resume tid (importSettled tid None (abort sig s))) !! tid
    = Some (mkTask req (Done (Throw (newError "Operation aborted"))))
    ∧ bergamotTranslators (resume tid (importSettled tid None (abort sig s)))
        !! requestKey req = None
    ∧ activeLoaders (resume tid (importSettled tid None (abort sig s)))
        !! requestKey req = None.
Proof.
  intros s tid req c sig Htask Hsig.
  set (s0 := abort sig s).
  assert (tasks s0 !! tid = Some (mkTask req (Importing c))) as Htask0.
  { subst s0. unfold abort. by destruct (bool_decide _). }
  assert (sig ∈ abortedSignals s0) as Hab.
  { subst s0. unfold abort. case_bool_decide; [done|]. simpl. set_solver. }
  unfold importSettled. rewrite Htask0.
  set (s1 := setPc _ _ _ _).
  assert (tasks s1 !! tid = Some (mkTask req (GotTranslator (Return (nextId s0))))) as Htask1.
  { subst s1. simpl. apply lookup_insert_eq. }
  assert (signalAborted s1 (abortSignal req) = true) as Habs.
  { rewrite Hsig. simpl. apply bool_decide_eq_true_2.
    subst s1. unfold cleanUpLoader. fields. done. }
  assert (activeLoaders s1 !! requestKey req = None) as Hl1.
  { subst s1. unfold cleanUpLoader. fields. apply lookup_delete_eq. }
  unfold resume. rewrite Htask1, Habs. unfold failLoad. split_and!.
  - simpl. apply lookup_insert_eq.
  - simpl. apply lookup_delete_eq.
  - simpl. exact Hl1.
Qed.

Lemma X14_abort_during_import_fails_the_load_witness :
  tasks (resume 10 (importSettled 10 None
                      (abort 7 (run Progress.exampleClock [Start 10 exampleRequest] initial))))
    !! 10%nat
  = Some (mkTask exampleRequest (Done (Throw (newError "Operation aborted")))).
Proof.
  apply (X14_abort_during_import_fails_the_load
           (run Progress.exampleClock [Start 10 exampleRequest] initial)
           10 exampleRequest 0 7).
  - by vm_compute.
  - reflexivity.
Defined.

End LoaderGeneralFacts.

(** ** The proxy routes *)

Section ProxyFacts.

Lemma startsWith_nonempty (needle : string) (a : ascii) (rest : string) :
  startsWith (String a needle) rest = true → rest ≠ "".
Proof. by destruct rest. Qed.

(** X15: the model proxy requests upstream nothing but the URL it was
    given, at most once, and only if that URL begins with the bucket's
    address; a missing, empty or foreign URL is refused with status 400
    and no upstream request at all. *)
Theorem X15_model_proxy_fetches_only_bucket_urls :
  ∀ (showStatus : Z → string) (net : string → ModelProxy.Upstream)
    (fileUrl : option string),
    (∀ u, u ∈ (ModelProxy.GET showStatus net fileUrl).2 →
          fileUrl = Some u ∧ startsWith ModelProxy.GCS_BASE_URL u = true)
    ∧ (length (ModelProxy.GET showStatus net fileUrl).2 ≤ 1)%nat
    ∧ ((fileUrl = None ∨ fileUrl = Some ""
        ∨ ∃ u, fileUrl = Some u ∧ startsWith ModelProxy.GCS_BASE_URL u = false) →
       ModelProxy.status (ModelProxy.GET showStatus net fileUrl).1 = 400
       ∧ (ModelProxy.GET showStatus net fileUrl).2 = []).
Proof.
  intros showStatus net fileUrl. unfold ModelProxy.GET.
  destruct fileUrl as [[|a u]|].
  - cbn [fst snd ModelProxy.status].
    split_and!; [by intros u Hin%elem_of_nil|simpl; lia|done].
  - destruct (startsWith ModelProxy.GCS_BASE_URL (String a u)) eqn:Hprefix; cbn [negb].
    + split_and!.
      * intros u' Hin.
        destruct (net (String a u)) as [e|[|] st txt [bytes|e]];
          cbn [fst snd] in Hin; apply list_elem_of_singleton in Hin as ->; done.
      * destruct (net (String a u)) as [e|[|] st txt [bytes|e]]; cbn [fst snd length]; lia.
      * intros [?|[?|(u' & [= <-] & Hno)]]; congruence.
    + cbn [fst snd ModelProxy.status].
      split_and!; [by intros u' Hin%elem_of_nil|simpl; lia|done].
  - cbn [fst snd ModelProxy.status].
    split_and!; [by intros u Hin%elem_of_nil|simpl; lia|done].
Qed.



Import RegistryProxy.

Lemma cacheAge_fresh (d : Z) :
  Progress.Qltb (inject_Z d / 1000)%Q (inject_Z CACHE_DURATION) = true ↔ d < 3600000.
Proof.
  unfold Progress.Qltb. rewrite negb_true_iff, <- not_true_iff_false, Qle_bool_iff.
  unfold Qle, Qdiv, Qmult, Qinv, inject_Z, CACHE_DURATION. simpl. lia.
Qed.

(** X17: the registry proxy serves from its cache for an hour. After a
    request at time [t0] that reached the upstream and got a registry
    object, the cache holds that object; every request less than
    3 600 000 ms after [t0] is answered with it, marked HIT, with status
    200, without any upstream request and without changing the cache, no
    matter what the upstream would do. *)
Theorem X17_registry_proxy_serves_cache_for_an_hour :
  ∀ (showZ : Z → string) (t0 now : Z) (c : Cache) (st : Z) (txt : string)
    (data : Registry.RegistryData) (up : Upstream),
    data ≠ Registry.DataNotObject →
    (GET showZ t0 (UpstreamResponds true st txt (Return data)) c).2 = 1%nat →
    now - t0 < 3600000 →
    (GET showZ t0 (UpstreamResponds true st txt (Return data)) c).1.2
    = mkCache (Some data) t0
    ∧ ∃ cacheControl age,
        GET showZ now up (mkCache (Some data) t0)
        = (mkProxyResponse 200 (Data data HIT cacheControl (Some age) None),
           mkCache (Some data) t0, 0%nat).
Proof.
  intros showZ t0 now c st txt data up Hobj Hmiss Hfresh. split.
  - unfold GET in *. destruct (cachedRegistry c) as [d|].
    + destruct (truthyData (Some d) && _); [done|]. by destruct data.
    + by destruct data.
  - unfold GET. cbn [cachedRegistry cacheTimestamp].
    assert (truthyData (Some data) = true) as -> by (by destruct data).
    apply cacheAge_fresh in Hfresh. rewrite Hfresh. simpl. eauto.
Qed.

Lemma X17_registry_proxy_serves_cache_for_an_hour_witness :
  ∃ cacheControl age,
    GET (λ _, "n") 1700003599999 upstreamDown (mkCache (Some sampleData) 1700000000000)
    = (mkProxyResponse 200 (Data sampleData HIT cacheControl (Some age) None),
       mkCache (Some sampleData) 1700000000000, 0%nat).
Proof.
  apply (X17_registry_proxy_serves_cache_for_an_hour (λ _, "n") 1700000000000
           1700003599999 emptyCache 200 "OK" sampleData upstreamDown).
  - done.
  - reflexivity.
  - lia.
Defined.



(** What the cache of the registry proxy holds is an object. *)
Lemma serve_cache_object showZ requests :
  ∀ c, (cachedRegistry c = None ∨ truthyData (cachedRegistry c) = true) →
       cachedRegistry (serve showZ requests c) = None
       ∨ truthyData (cachedRegistry (serve showZ requests c)) = true.
Proof.
  unfold serve. induction requests as [|[now up] requests IH]; intros c Hc; [done|].
  simpl. apply IH.
  unfold GET, refresh.
  destruct (cachedRegistry c) as [d|] eqn:Hd.
  - destruct (truthyData (Some d) && _); [simpl; by rewrite Hd|].
    destruct up as [e|[|] st txt [[| |entries]|e]]; simpl; rewrite ?Hd; auto.
  - destruct up as [e|[|] st txt [[| |entries]|e]]; simpl; rewrite ?Hd; auto.
Qed.

End ProxyFacts.

(** ** The order of the backing's progress reports *)

Section ProgressOrderFacts.
Import Progress ProgressOrder.

Lemma chain_le lo l hi : chain lo l hi → lo ≤ hi.
Proof.
  revert lo. induction l as [|x l IH]; intros lo; simpl; [done|].
  intros [H1 H2%IH]. lia.
Qed.







Lemma mathRound_le (x y : Q) : (x <= y)%Q → mathRound x ≤ mathRound y.
Proof. intros H. unfold mathRound. apply Qfloor_resp_le. by apply Qplus_le_l. Qed.


Lemma slot_le (baseProgress allocation p q : Q) :
  (0 <= allocation)%Q → (p <= q)%Q →
  Z.min 95 (Z.max 0 (mathRound (baseProgress + p * allocation / 100)))
  ≤ Z.min 95 (Z.max 0 (mathRound (baseProgress + q * allocation / 100))).
Proof.
  intros Ha Hpq.
  assert (mathRound (baseProgress + p * allocation / 100)
          ≤ mathRound (baseProgress + q * allocation / 100)); [|lia].
  apply mathRound_le, Qplus_le_r. unfold Qdiv.
  apply Qmult_le_compat_r; [|done]. by apply Qmult_le_compat_r.
Qed.














Lemma nondecreasing_dip l1 x y l2 : y < x → nondecreasing (l1 ++ x :: y :: l2) = false.
Proof.
  intros Hxy. induction l1 as [|a l1 IH].
  - cbn [app nondecreasing]. apply andb_false_iff. left. by apply Z.leb_gt.
  - destruct l1 as [|a' l1]; cbn [app nondecreasing] in *; rewrite IH; apply andb_false_r.
Qed.

(** With a callback, [updateProgress] leaves the value it computed in
    [lastProgressUpdate], and reports it whenever it differs from the
    value left there before. *)
Lemma updateProgress_effect clock baseProgress fileProgress weight b :
  hasOnProgress b = true →
  hasOnProgress (updateProgress clock baseProgress fileProgress weight b).1 = true
  ∧ lastProgressUpdate (updateProgress clock baseProgress fileProgress weight b).1
    = Z.min 95 (Z.max 0 (mathRound (baseProgress + fileProgress * weight / 100)))
  ∧ (lastProgressUpdate b
       ≠ Z.min 95 (Z.max 0 (mathRound (baseProgress + fileProgress * weight / 100))) →
     (updateProgress clock baseProgress fileProgress weight b).2
     = [OnProgress (Z.min 95 (Z.max 0 (mathRound (baseProgress + fileProgress * weight / 100))))]).
Proof.
  intros Hon. unfold updateProgress. rewrite Hon. cbv zeta.
  destruct (Z.eqb_spec
              (Z.min 95 (Z.max 0 (mathRound (baseProgress + fileProgress * weight / 100))))
              (lastProgressUpdate b)) as [Heq|Hne]; cbn [negb orb].
  - destruct (100 <? _); cbn [fst snd hasOnProgress lastProgressUpdate];
      split_and!; try done; intros Hne; by destruct Hne.
  - cbn [fst snd hasOnProgress lastProgressUpdate]. by split_and!.
Qed.

Lemma Qfloor_unit (x : Q) : (0 <= x)%Q → (x < 1)%Q → Qfloor x = 0.
Proof.
  intros H0 H1.
  pose proof (Qfloor_le x) as Hle. pose proof (Qlt_floor x) as Hlt.
  assert (inject_Z (Qfloor x) < inject_Z 1)%Q as Ha by (eapply Qle_lt_trans; [exact Hle|exact H1]).
  assert (inject_Z 0 < inject_Z (Qfloor x + 1))%Q as Hb by (eapply Qle_lt_trans; [exact H0|exact Hlt]).
  rewrite <- Zlt_Qlt in Ha, Hb. lia.
Qed.

(** The share of the file the first chunk makes, when the chunk is less
    than a thousandth of the announced length. *)
Lemma first_chunk_share (n total : Z) :
  0 ≤ n → 1000 * n < total →
  (0 <= inject_Z n / inject_Z total * 100)%Q
  ∧ (inject_Z n / inject_Z total * 100 < 1 # 10)%Q.
Proof.
  intros Hn Hsmall.
  assert (0 < inject_Z total)%Q as Htot.
  { change 0%Q with (inject_Z 0). rewrite <- Zlt_Qlt. lia. }
  assert (0 <= inject_Z n / inject_Z total)%Q as H0.
  { apply Qle_shift_div_l; [done|]. rewrite Qmult_0_l.
    change 0%Q with (inject_Z 0). rewrite <- Zle_Qle. lia. }
  assert (inject_Z n / inject_Z total < 1 # 1000)%Q as H1.
  { apply Qlt_shift_div_r; [done|]. unfold Qlt. simpl. lia. }
  set (x := (inject_Z n / inject_Z total)%Q) in *.
  split.
  - rewrite <- (Qmult_0_l 100). apply Qmult_le_compat_r; done.
  - apply (Qlt_le_trans _ ((1 # 1000) * 100)); [|done].
    apply Qmult_lt_compat_r; done.
Qed.

(** X20. In a direct load (three files), a file that is read chunk by
    chunk makes the reported percentage go down when its first chunk is
    less than a thousandth of the announced length: the value reported
    for that chunk is below the one reported when the download began. *)
Theorem X20_streamed_download_steps_back clock url r b total first rest :
  hasOnProgress b = true →
  totalFilesEstimate b = 3 → 0 ≤ filesDownloaded b < 3 →
  cached r = false → hasBody r = true → contentLength r = Some total →
  chunks r = first :: rest →
  1000 * Z.of_nat (length first) < total →
  nondecreasing (reports (fetch clock url r b).2) = false.
Proof.
  intros Hon HT Hfd Hc Hb Hlen Hch Hsmall.
  destruct (first_chunk_share (Z.of_nat (length first)) total) as [Hq0 Hq1]; [lia|done|].
  unfold fetch. cbv zeta. rewrite Hc, Hlen, Hb, Hch, HT.
  cbn [default from_option id].
  destruct (Z.eqb_spec total 0) as [?|_]; [lia|]. cbn [negb andb].
  set (base := (5 + inject_Z (filesDownloaded b) / inject_Z 3 * 85)%Q).
  set (alloc := (85 / inject_Z 3)%Q).
  match goal with |- context [if ?c then ?x else ?y] => set (tail := if c then x else y) end.
  set (V := λ p : Q, Z.min 95 (Z.max 0 (mathRound (base + p * alloc / 100)))).
  set (q := (inject_Z (Z.of_nat (length first)) / inject_Z total * 100)%Q) in *.
  assert (V 0%Q ≠ V 5%Q ∧ V (1 # 10) < V 5%Q) as [Hv05 Hv15].
  { subst V base alloc. cbv beta.
    assert (filesDownloaded b = 0 ∨ filesDownloaded b = 1 ∨ filesDownloaded b = 2)
      as [-> | [-> | ->]] by lia; by vm_compute. }
  assert (V q ≤ V (1 # 10)) as Hvq.
  { apply slot_le; [done|]. by apply Qlt_le_weak. }
  rewrite andThen_snd, reports_app.
  set (b1 := (andThen _ (updateProgress clock base 0 alloc) b).1).
  assert (hasOnProgress b1 = true ∧ lastProgressUpdate b1 = V 0%Q) as [Hon1 Hlast1].
  { subst b1. rewrite andThen_fst. cbn [fst].
    by destruct (updateProgress_effect clock base 0 alloc b Hon) as (? & ? & _). }
  rewrite !andThen_snd, !reports_app.
  destruct (updateProgress_effect clock base 5 alloc b1 Hon1) as (Hon2 & Hlast2 & Hrep2).
  rewrite Hrep2 by (rewrite Hlast1; exact Hv05).
  set (b2 := (updateProgress clock base 5 alloc b1).1) in *.
  cbn [readChunks]. rewrite andThen_snd, reports_app.
  rewrite Hon2. cbv zeta. rewrite Z.add_0_l. fold q.
  assert (Qmin 90 q = q) as ->.
  { unfold Qmin. destruct (Qle_bool 90 q) eqn:E; [|done].
    apply Qle_bool_iff in E. exfalso.
    apply (Qlt_irrefl q), (Qlt_le_trans _ (1 # 10)); [done|].
    by apply (Qle_trans _ 90). }
  assert (Qltb (jsMod q 5) (1 # 10) = true) as ->.
  { unfold Qltb, jsMod. rewrite (Qfloor_unit (q / 5)).
    - destruct (Qle_bool _ _) eqn:E; [|done].
      apply Qle_bool_iff in E. exfalso.
      apply (Qlt_irrefl q), (Qlt_le_trans _ (1 # 10)); [done|].
      eapply Qle_trans; [exact E|].
      assert (q - 5 * inject_Z 0 == q)%Q as -> by (unfold Qeq; simpl; lia).
      apply Qle_refl.
    - apply Qle_shift_div_l; [done|]. by rewrite Qmult_0_l.
    - apply Qlt_shift_div_r; [done|].
      apply (Qlt_le_trans _ (1 # 10)); done. }
  cbn [orb].
  destruct (updateProgress_effect clock base q alloc b2 Hon2) as (_ & _ & Hrep3).
  rewrite Hrep3 by (rewrite Hlast2; fold (V 5%Q) (V q); lia).
  fold (V 5%Q) (V q).
  change (reports [OnProgress (V 5%Q)]) with [V 5%Q].
  change (reports [OnProgress (V q)]) with [V q].
  rewrite <- !app_assoc. cbn [app].
  rewrite app_assoc. apply nondecreasing_dip. lia.
Qed.

Lemma X20_streamed_download_steps_back_witness :
  nondecreasing
    (reports (fetch exampleClock modelUrl
                (mkFileResponse (Some 2000) false true [[1]; [2; 3]])
                directBacking).2) = false.
Proof.
  apply (X20_streamed_download_steps_back _ _ _ _ 2000 [1] [[2; 3]]);
    try reflexivity; vm_compute; try done; split; congruence.
Defined.

End ProgressOrderFacts.
